(** * aws-swb.js: the Service Workbench API client, [src/swb.js]

    A shallow embedding of the [SWB] class and the properties its
    specification states about it.

    - JavaScript values are the JSON documents the client exchanges with
      the service, plus [undefined].
    - A method is a computation in a small monad: it reads and writes the
      client object ([this]), the caller's heap, and the log of requests
      handed to [fetch]; it may throw.  The transport is a parameter: a
      function from the requests issued so far and the current request to
      what [fetch] produces.
    - A call runs its promise chain to quiescence; its result records
      whether the call threw, or how the promise it returned settled (or
      that it never settles). *)

From Stdlib Require Import ZArith String Ascii List Bool Lia Permutation Sorted.
From Stdlib Require Import DecimalString.
From stdpp Require Import base gmap.
Import ListNotations.
Local Open Scope string_scope.
Local Open Scope list_scope.
Set Warnings "-register-all".

(** ** Values *)

(** Numbers are the Number values that are integers; strings are
    sequences of code units below 256 (ASCII text in all examples). *)
Inductive value : Type :=
| Undefined
| Null
| Bool (b : bool)
| Num (n : Z)
| Str (s : string)
| Arr (elements : list value)
| Obj (properties : list (string * value)).

(** *** [Number::toString]

    A Number has 53 significant bits: the Number value of a positive
    integer is the nearest integer of that form, the even one of two
    that are equally near. *)
Definition round_to_double (y : Z) : Z :=
  let bits := (Z.log2 y + 1)%Z in
  if (bits <=? 53)%Z then y
  else
    let shift := (bits - 53)%Z in
    let q := Z.shiftr y shift in
    let rest := (y - Z.shiftl q shift)%Z in
    let half := Z.shiftl 1 (shift - 1) in
    let q' := if (half <? rest)%Z || ((rest =? half)%Z && Z.odd q)
              then (q + 1)%Z else q in
    Z.shiftl q' shift.

Definition digits (n : Z) : string := NilZero.string_of_int (Z.to_int n).

(** The decimal with the fewest significant digits whose Number value is
    [x], a number of [d] digits: with [k] significant digits the two
    candidates are the multiples of [10 ^ (d - k)] next to [x]; of two
    that qualify the nearer is taken, and of two equally near the one
    with the even last digit. *)
Fixpoint shortest_decimal (x d : Z) (fuel : nat) (k : Z) : Z :=
  match fuel with
  | O => x
  | S fuel' =>
      let p := (10 ^ (d - k))%Z in
      let s := (x / p)%Z in
      let lo := (s * p)%Z in
      let hi := ((s + 1) * p)%Z in
      match (round_to_double lo =? x)%Z, (round_to_double hi =? x)%Z with
      | true, true =>
          if (x - lo <? hi - x)%Z then lo
          else if (hi - x <? x - lo)%Z then hi
          else if Z.even s then lo else hi
      | true, false => lo
      | false, true => hi
      | false, false => shortest_decimal x d fuel' (k + 1)
      end
  end.

Fixpoint strip_zeros (s : string) : string :=
  match s with
  | EmptyString => EmptyString
  | String c s' =>
      match strip_zeros s' with
      | EmptyString => if (c =? "0")%char then EmptyString else String c EmptyString
      | t => String c t
      end
  end.

(** A positive integer as [Number::toString] prints it: the shortest
    decimal, written out when it has at most 21 digits and in exponent
    form beyond; up to [2 ^ 53] that is the integer itself.  An integer
    that is no Number value prints as the nearest one. *)
Definition NumberToString (m : Z) : string :=
  let x := round_to_double m in
  if (2 ^ 1024 <=? x)%Z then "Infinity"
  else
    let d := Z.of_nat (String.length (digits x)) in
    let v := shortest_decimal x d (Z.to_nat d) 1 in
    let n := String.length (digits v) in
    if (n <=? 21)%nat then digits v
    else
      match strip_zeros (digits v) with
      | String c EmptyString => String c ("e+" ++ digits (Z.of_nat n - 1))
      | String c rest => String c ("." ++ rest ++ "e+" ++ digits (Z.of_nat n - 1))
      | EmptyString => EmptyString
      end.

(** [ToString], as template literals, [join] and the default comparator
    of [sort] apply it.  In an array [undefined] and [null] print as the
    empty string. *)
Fixpoint ToString (v : value) : string :=
  match v with
  | Undefined => "undefined"
  | Null => "null"
  | Bool true => "true"
  | Bool false => "false"
  | Num n =>
      if (n =? 0)%Z then "0"
      else if (n <? 0)%Z then "-" ++ NumberToString (- n)
      else NumberToString n
  | Str s => s
  | Arr l =>
      String.concat ","
        (List.map (fun x => match x with
                            | Undefined | Null => ""
                            | _ => ToString x
                            end) l)
  | Obj _ => "[object Object]"
  end.

Definition join_item (x : value) : string :=
  match x with
  | Undefined | Null => ""
  | _ => ToString x
  end.

(** [a.join()], with the default separator. *)
Definition join (a : list value) : string :=
  String.concat "," (List.map join_item a).

(** [!v] is [negb (truthy v)]. *)
Definition truthy (v : value) : bool :=
  match v with
  | Undefined | Null => false
  | Bool b => b
  | Num n => negb (n =? 0)%Z
  | Str s => negb (s =? "")
  | Arr _ | Obj _ => true
  end.

(** [v === s] for a string [s]. *)
Definition strict_eq_str (v : value) (s : string) : bool :=
  match v with
  | Str s' => (s' =? s)
  | _ => false
  end.

(** [[s1, ..., sn].includes(v)] for string literals (SameValueZero). *)
Definition includes (l : list string) (v : value) : bool :=
  existsb (strict_eq_str v) l.

(** A parameter with a default value: [undefined] selects the default. *)
Definition or_default (d v : value) : value :=
  match v with
  | Undefined => d
  | _ => v
  end.

(** *** Objects: ordered property lists *)

Fixpoint field (k : string) (o : list (string * value)) : value :=
  match o with
  | [] => Undefined
  | (k', v) :: o' => if (k =? k') then v else field k o'
  end.

Fixpoint has_field (k : string) (o : list (string * value)) : bool :=
  match o with
  | [] => false
  | (k', _) :: o' => (k =? k') || has_field k o'
  end.

(** [delete o[k]] *)
Definition delete_field (k : string) (o : list (string * value))
  : list (string * value) :=
  List.filter (fun kv => negb (k =? fst kv)) o.

(** [o[k] = v]: an existing property keeps its place, a new one goes last. *)
Fixpoint set_field (k : string) (v : value) (o : list (string * value))
  : list (string * value) :=
  match o with
  | [] => [(k, v)]
  | (k', v') :: o' =>
      if (k =? k') then (k, v) :: o' else (k', v') :: set_field k v o'
  end.

(** *** [Array.prototype.sort()] with the default comparator

    [undefined] sorts last; everything else is ordered by the code units
    of its string conversion.  The sort is stable. *)
Definition sort_le (x y : value) : bool :=
  match x, y with
  | _, Undefined => true
  | Undefined, _ => false
  | _, _ => (ToString x <=? ToString y)
  end.

Fixpoint sort_insert (x : value) (l : list value) : list value :=
  match l with
  | [] => [x]
  | y :: l' => if sort_le x y then x :: y :: l' else y :: sort_insert x l'
  end.

Definition sort (l : list value) : list value :=
  fold_right sort_insert [] l.

(** *** [JSON.stringify]

    The request body is JSON text; it is represented by the document the
    text denotes.  Properties whose value is [undefined] are left out,
    and [undefined] inside an array becomes [null]. *)
Fixpoint JSON_stringify (v : value) : value :=
  match v with
  | Arr l =>
      Arr (List.map (fun x => match x with
                              | Undefined => Null
                              | _ => JSON_stringify x
                              end) l)
  | Obj o =>
      Obj ((fix props (o : list (string * value)) : list (string * value) :=
              match o with
              | [] => []
              | (k, Undefined) :: o' => props o'
              | (k, x) :: o' => (k, JSON_stringify x) :: props o'
              end) o)
  | _ => v
  end.

(** *** [encodeURI] and [toLowerCase] *)

Definition hex_digit (n : nat) : ascii :=
  match n with
  | 0 => "0" | 1 => "1" | 2 => "2" | 3 => "3" | 4 => "4" | 5 => "5"
  | 6 => "6" | 7 => "7" | 8 => "8" | 9 => "9" | 10 => "A" | 11 => "B"
  | 12 => "C" | 13 => "D" | 14 => "E" | _ => "F"
  end%char.

Definition between (lo hi c : ascii) : bool :=
  (nat_of_ascii lo <=? nat_of_ascii c)%nat && (nat_of_ascii c <=? nat_of_ascii hi)%nat.

(** The characters [encodeURI] leaves alone: letters, digits, the URI
    reserved characters, the unreserved marks and the number sign. *)
Definition uri_unescaped (c : ascii) : bool :=
  between "a" "z" c || between "A" "Z" c || between "0" "9" c
  || existsb (Ascii.eqb c) (list_ascii_of_string ";/?:@&=+$,-_.!~*'()#").

(** An octet as [%XX]. *)
Definition percent (n : nat) : string :=
  String "%" (String (hex_digit (n / 16)) (String (hex_digit (n mod 16)) "")).

(** Every other code unit is replaced by the octets of its UTF-8
    encoding: one octet below 128, two from 128 on. *)
Fixpoint encodeURI (s : string) : string :=
  match s with
  | EmptyString => EmptyString
  | String c s' =>
      let n := nat_of_ascii c in
      if uri_unescaped c then String c (encodeURI s')
      else if (n <? 128)%nat then percent n ++ encodeURI s'
      else percent (192 + n / 64) ++ percent (128 + n mod 64) ++ encodeURI s'
  end.

(** The code units that have a lower case: the letters A to Z and the
    capital letters of Latin-1, which are 192 to 222 without the
    multiplication sign, 215.  Each is 32 below its lower case. *)
Definition is_upper (c : ascii) : bool :=
  let n := nat_of_ascii c in
  ((65 <=? n) && (n <=? 90) || (192 <=? n) && (n <=? 222) && negb (n =? 215))%nat.

Fixpoint toLowerCase (s : string) : string :=
  match s with
  | EmptyString => EmptyString
  | String c s' =>
      String (if is_upper c then ascii_of_nat (nat_of_ascii c + 32) else c)
        (toLowerCase s')
  end.

(** ** Exceptions, requests and the transport *)

Inductive exn : Type :=
| Thrown (v : value)            (* [throw v], [reject(v)]: a plain value *)
| JsError (message : string)    (* [new Error(message)] *)
| TypeError                     (* raised by the runtime *)
| FetchError                    (* [fetch]: the request could not be completed *)
| InvalidJson.                  (* [response.json()]: the body is not JSON *)

Inductive completion (A : Type) : Type :=
| Normal (a : A)
| Abrupt (e : exn).
Arguments Normal {A} a.
Arguments Abrupt {A} e.

(** The [init] argument of [fetch], with the address. A request without
    a body has [body = Undefined]. *)
Record request : Type := mkRequest {
  url : string;
  method : string;
  headers : list (string * value);
  body : value
}.

(** A [Response]: the status line and what [json()] parses, if the body
    parses at all. *)
Record response : Type := mkResponse {
  status : Z;
  parsed : option value
}.

(** The transport answers a request knowing the requests made before it;
    [None] is a network failure. *)
Definition transport : Type := list request -> request -> option response.

Definition is_write (r : request) : bool := negb (method r =? "GET").

(** ** The client object and the state of a call *)

Record SWB : Type := mkSWB {
  api : string;
  username : string;
  password : string;          (* #password *)
  token : value;              (* #token *)
  authProviders : value;      (* #authProviders *)
  authenticated : bool;
  dryrun : bool
}.

Definition constructor (api username password : string) : SWB :=
  {| api := api; username := username; password := password;
     token := Undefined; authProviders := Undefined;
     authenticated := false; dryrun := false |}.

(** How the promise returned by a call has settled. [updateUserDetails]
    resolves with the [Response] itself, every other method with a
    value. *)
Inductive promise : Type :=
| Pending
| Fulfilled (v : value)
| FulfilledResponse (r : response)
| Rejected (e : exn).

Abbreviation loc := positive.

Record world : Type := mkWorld {
  this : SWB;
  heap : gmap loc value;      (* the caller's objects that a method writes to *)
  history : list request;     (* requests made by earlier calls *)
  sent : list request;        (* requests made by this call, oldest first *)
  settled : promise           (* the promise this call returns *)
}.

Definition M (A : Type) : Type := transport -> world -> completion A * world.

Definition ret {A} (a : A) : M A := fun _ w => (Normal a, w).

Definition throw {A} (e : exn) : M A := fun _ w => (Abrupt e, w).

Definition bind {A B} (c : M A) (k : A -> M B) : M B :=
  fun net w =>
    match c net w with
    | (Normal a, w') => k a net w'
    | (Abrupt e, w') => (Abrupt e, w')
    end.

Definition lift {A} (c : completion A) : M A := fun _ w => (c, w).

Notation "x <- c ;; k" := (bind c (fun x => k))
  (at level 100, c at next level, right associativity).
Notation "c ;; k" := (bind c (fun _ => k))
  (at level 100, right associativity).

Definition get_this : M SWB := fun _ w => (Normal (this w), w).

Definition set_token (t : value) : M unit :=
  fun _ w =>
    (Normal tt,
     {| this := {| api := api (this w); username := username (this w);
                   password := password (this w); token := t;
                   authProviders := authProviders (this w);
                   authenticated := authenticated (this w);
                   dryrun := dryrun (this w) |};
        heap := heap w; history := history w; sent := sent w;
        settled := settled w |}).

(** [resolve] and [reject] settle the promise once; later calls are
    ignored. *)
Definition settle (p : promise) : M unit :=
  fun _ w =>
    (Normal tt,
     match settled w with
     | Pending => {| this := this w; heap := heap w; history := history w;
                     sent := sent w; settled := p |}
     | _ => w
     end).

Definition resolve (v : value) : M unit := settle (Fulfilled v).
Definition resolve_response (r : response) : M unit := settle (FulfilledResponse r).
Definition reject (v : value) : M unit := settle (Rejected (Thrown v)).

(** What the transport answers to a request made in state [w]. *)
Definition answer (net : transport) (w : world) (req : request) : option response :=
  net (history w ++ sent w) req.

Definition fetch (url method : string) (headers : list (string * value))
    (body : value) : M response :=
  fun net w =>
    let req := {| url := url; method := method; headers := headers; body := body |} in
    let w' := {| this := this w; heap := heap w; history := history w;
                 sent := sent w ++ [req]; settled := settled w |} in
    match answer net w req with
    | Some r => (Normal r, w')
    | None => (Abrupt FetchError, w')
    end.

(** [r.json()] *)
Definition json (r : response) : M value :=
  match parsed r with
  | Some v => ret v
  | None => throw InvalidJson
  end.

(** [v.k]: reading a property of [undefined] or [null] throws; anything
    that is not an object has none of the properties the client reads. *)
Definition prop (k : string) (v : value) : completion value :=
  match v with
  | Undefined | Null => Abrupt TypeError
  | Obj o => Normal (field k o)
  | _ => Normal Undefined
  end.

Definition get (k : string) (v : value) : M value := lift (prop k v).

(** [a.find(pred)] on the elements. *)
Fixpoint find_in (pred : value -> completion bool) (l : list value)
  : completion value :=
  match l with
  | [] => Normal Undefined
  | x :: l' =>
      match pred x with
      | Abrupt e => Abrupt e
      | Normal true => Normal x
      | Normal false => find_in pred l'
      end
  end.

(** [users.find(pred)]: only arrays have a [find] method. *)
Definition find (pred : value -> completion bool) (users : value) : M value :=
  match users with
  | Arr l => lift (find_in pred l)
  | _ => throw TypeError
  end.

(** [u => u.uid === uid] *)
Definition has_uid (uid : string) (u : value) : completion bool :=
  match prop "uid" u with
  | Normal x => Normal (strict_eq_str x uid)
  | Abrupt e => Abrupt e
  end.

(** The elements of [v] when [v] is an array; calling an array method
    on anything else throws. *)
Definition elements_of (v : value) : M (list value) :=
  match v with
  | Arr l => ret l
  | _ => throw TypeError
  end.

(** [u.k = v] on the object [u]. *)
Definition set_prop (k : string) (v : value) (u : value) : value :=
  match u with
  | Obj o => Obj (set_field k v o)
  | _ => u
  end.

(** Reading and writing the caller's object behind a reference. *)
Definition read (l : loc) : M value :=
  fun _ w => (Normal (match heap w !! l with Some v => v | None => Undefined end), w).

Definition write (l : loc) (v : value) : M unit :=
  fun _ w =>
    (Normal tt,
     {| this := this w; heap := <[l := v]> (heap w); history := history w;
        sent := sent w; settled := settled w |}).

(** [delete ref[k]] *)
Definition delete_prop (l : loc) (k : string) : M unit :=
  v <- read l ;;
  match v with
  | Undefined | Null => throw TypeError
  | Obj o => write l (Obj (delete_field k o))
  | _ => ret tt
  end.

(** The headers every authenticated request carries. *)
Definition auth_headers (s : SWB) : list (string * value) :=
  [("Content-Type", Str "application/json"); ("Authorization", token s)].

(** A method is its synchronous part, which may throw, yielding the
    chain of callbacks behind the promise it returns. *)
Definition operation : Type := M (M unit).

(** The common tail [.then(r => r.json()).then(p => resolve(p))]. *)
Definition resolve_json (r : response) : M unit :=
  p <- json r ;; resolve p.

(** ** The methods of [SWB]

    Every method of the class that builds the promise it returns;
    [getIdp], the one [async] method, follows the section on running a
    call. *)

Section Client.

(** The runtime's conversion of a string to a number, used by [==]
    between a string and a number or boolean: [None] when the string
    denotes no integer. *)
Variable StringToNumber : string -> option Z.

(** [v == s] for a string [s]. *)
Definition loose_eq_str (v : value) (s : string) : bool :=
  match v with
  | Undefined | Null => false
  | Str s' => (s' =? s)
  | Num n => match StringToNumber s with Some m => (n =? m)%Z | None => false end
  | Bool b =>
      match StringToNumber s with
      | Some m => ((if b then 1 else 0) =? m)%Z
      | None => false
      end
  | Arr _ | Obj _ => (ToString v =? s)
  end.

Definition login : operation :=
  this0 <- get_this ;;
  let body := Obj [("username", Str (username this0));
                   ("password", Str (password this0));
                   ("authenticationProvider", Str "internal")] in
  ret (
    response <- fetch (api this0 ++ "/api/authentication/id-tokens") "POST"
                  [("Content-Type", Str "application/json")]
                  (JSON_stringify body) ;;
    (if negb (status response =? 200)%Z
     then throw (JsError "authentication failed")
     else ret tt) ;;
    auth <- json response ;;
    idToken <- get "idToken" auth ;;
    set_token idToken ;;
    this1 <- get_this ;;
    r <- fetch (api this1 ++ "/api/user") "GET" (auth_headers this1) Undefined ;;
    resolve_json r).

Definition addFederatedUser (idp : value) (adpUrl email : string)
    (role : value) : operation :=
  let role := or_default (Str "researcher") role in
  idp_id <- get "id" idp ;;
  let body := Obj [("email", Str (toLowerCase email));
                   ("identityProviderName", idp_id);
                   ("projectId", Arr []);
                   ("userRole", role);
                   ("authenticationProviderId", Str adpUrl);
                   ("username", Str (toLowerCase email))] in
  ret (
    this0 <- get_this ;;
    if dryrun this0 then resolve body
    else
      r <- fetch (api this0 ++ "/api/users") "POST" (auth_headers this0)
             (JSON_stringify body) ;;
      resolve_json r).

(** [u => (u.email == email && u.identityProviderName == idpName)] *)
Definition email_and_idp_match (email idpName : string) (u : value)
  : completion bool :=
  match prop "email" u with
  | Abrupt e => Abrupt e
  | Normal x =>
      if loose_eq_str x email then
        match prop "identityProviderName" u with
        | Abrupt e => Abrupt e
        | Normal y => Normal (loose_eq_str y idpName)
        end
      else Normal false
  end.

Definition getUserByEmailAndIdp (email idpName : string) : operation :=
  ret (
    this0 <- get_this ;;
    r <- fetch (api this0 ++ "/api/users") "GET" (auth_headers this0) Undefined ;;
    users <- json r ;;
    (if negb (truthy users) then reject users else ret tt) ;;
    u <- find (email_and_idp_match email idpName) users ;;
    if truthy u then resolve u
    else reject (Str (email ++ " not found for " ++ idpName))).

Definition updateUserDetails (uid firstname surname status userRole : string)
  : operation :=
  ret (
    this0 <- get_this ;;
    r <- fetch (api this0 ++ "/api/users") "GET" (auth_headers this0) Undefined ;;
    users <- json r ;;
    u <- find (has_uid uid) users ;;
    match u with
    | Undefined => reject (Str "uid not found while adding project")
    | _ =>
        applyReason <- get "applyReason" u ;;
        email <- get "email" u ;;
        isAdmin <- get "isAdmin" u ;;
        isExternalUser <- get "isExternalUser" u ;;
        projectId <- get "projectId" u ;;
        rev <- get "rev" u ;;
        let u2 := Obj [("applyReason", applyReason);
                       ("email", email);
                       ("firstName", Str firstname);
                       ("isAdmin", isAdmin);
                       ("isExternalUser", isExternalUser);
                       ("lastName", Str surname);
                       ("projectId", projectId);
                       ("rev", rev);
                       ("status", Str status);
                       ("userRole", Str userRole)] in
        this1 <- get_this ;;
        if dryrun this1 then resolve u2
        else
          r2 <- fetch (api this1 ++ "/api/users/" ++ uid) "PUT"
                  (auth_headers this1) (JSON_stringify u2) ;;
          resolve_response r2
    end).

(** Lines 312-314: the target project is filtered out of the list and
    pushed back when the action is ["add"]. *)
Definition rebuilt_projectId (projectId : string) (action : value)
    (ids : list value) : list value :=
  let filtered := List.filter (fun id => negb (strict_eq_str id projectId)) ids in
  if strict_eq_str action "add" then filtered ++ [Str projectId] else filtered.

Definition addRemoveProjectUser (projectId uid : string) (action : value)
  : operation :=
  let action := or_default (Str "add") action in
  ret (
    this0 <- get_this ;;
    r <- fetch (api this0 ++ "/api/users") "GET" (auth_headers this0) Undefined ;;
    users <- json r ;;
    u <- find (has_uid uid) users ;;
    match u with
    | Undefined =>
        reject (Str ("uid " ++ uid ++ " not found while " ++ ToString action
                       ++ " to/from " ++ projectId))
    | _ =>
        applyReason <- get "applyReason" u ;;
        email <- get "email" u ;;
        firstName <- get "firstName" u ;;
        isAdmin <- get "isAdmin" u ;;
        isExternalUser <- get "isExternalUser" u ;;
        lastName <- get "lastName" u ;;
        projectId0 <- get "projectId" u ;;
        rev <- get "rev" u ;;
        status <- get "status" u ;;
        userRole <- get "userRole" u ;;
        let u2 := Obj [("applyReason", applyReason);
                       ("email", email);
                       ("firstName", firstName);
                       ("isAdmin", isAdmin);
                       ("isExternalUser", isExternalUser);
                       ("lastName", lastName);
                       ("projectId", projectId0);
                       ("rev", rev);
                       ("status", status);
                       ("userRole", userRole)] in
        ids <- elements_of projectId0 ;;
        let new_ids := rebuilt_projectId projectId action ids in
        (* both [sort()] calls reorder their array in place *)
        let u := set_prop "projectId" (Arr (sort ids)) u in
        let u2 := set_prop "projectId" (Arr (sort new_ids)) u2 in
        if (join (sort ids) =? join (sort new_ids)) then resolve u
        else
          this1 <- get_this ;;
          if dryrun this1 then resolve u2
          else
            r2 <- fetch (api this1 ++ "/api/users/" ++ uid) "PUT"
                    (auth_headers this1) (JSON_stringify u2) ;;
            resolve_json r2
    end).

Definition getProject (projectId : string) : operation :=
  ret (
    this0 <- get_this ;;
    r <- fetch (api this0 ++ "/api/projects/" ++ projectId) "GET"
           (auth_headers this0) Undefined ;;
    resolve_json r).

Definition updateProject (proj : value) : operation :=
  description <- get "description" proj ;;
  id <- get "id" proj ;;
  indexId <- get "indexId" proj ;;
  projectAdmins <- get "projectAdmins" proj ;;
  rev <- get "rev" proj ;;
  let newProj := Obj [("description", description);
                      ("id", id);
                      ("indexId", indexId);
                      ("projectAdmins", projectAdmins);
                      ("rev", rev)] in
  ret (
    this0 <- get_this ;;
    if dryrun this0 then resolve newProj
    else
      r <- fetch (api this0 ++ "/api/projects/" ++ ToString id) "PUT"
             (auth_headers this0) (JSON_stringify newProj) ;;
      resolve_json r).

Definition getProjects : operation :=
  ret (
    this0 <- get_this ;;
    r <- fetch (api this0 ++ "/api/projects") "GET" (auth_headers this0) Undefined ;;
    resolve_json r).

(** [admins.map(({uid}) => uid)] on the elements. *)
Fixpoint uids_of (admins : list value) : completion (list value) :=
  match admins with
  | [] => Normal []
  | a :: admins' =>
      match prop "uid" a with
      | Abrupt e => Abrupt e
      | Normal uid =>
          match uids_of admins' with
          | Abrupt e => Abrupt e
          | Normal uids => Normal (uid :: uids)
          end
      end
  end.

Definition createProject (projectId description : string) (index admins : value)
  : operation :=
  index_id <- get "id" index ;;
  admins <- elements_of admins ;;
  uids <- lift (uids_of admins) ;;
  let body := Obj [("id", Str projectId);
                   ("description", Str description);
                   ("indexId", index_id);
                   ("projectAdmins", Arr uids)] in
  ret (
    this0 <- get_this ;;
    if dryrun this0 then resolve body
    else
      r <- fetch (api this0 ++ "/api/projects") "POST" (auth_headers this0)
             (JSON_stringify body) ;;
      resolve_json r).

Definition getStudies (category : value) : operation :=
  let category := or_default (Str "Organization") category in
  if negb (includes ["Organization"; "My Studies"] category)
  then throw (Thrown (Str "Invalid category type."))
  else
    let category := encodeURI (ToString category) in
    ret (
      this0 <- get_this ;;
      r <- fetch (api this0 ++ "/api/studies/?category=" ++ category) "GET"
             (auth_headers this0) Undefined ;;
      resolve_json r).

Definition getStudy (studyId : string) : operation :=
  ret (
    this0 <- get_this ;;
    r <- fetch (api this0 ++ "/api/studies/" ++ studyId) "GET"
           (auth_headers this0) Undefined ;;
    resolve_json r).

(** [console.log(body)] writes to the console only and is left out. *)
Definition createStudy (id name description projectId : string)
    (category studyType uploadLocationEnabled : value) : operation :=
  let category := or_default (Str "Organization") category in
  let studyType := or_default (Str "unstructured") studyType in
  let uploadLocationEnabled := or_default (Bool true) uploadLocationEnabled in
  if negb (includes ["Organization"; "My Studies"] category)
  then throw (Thrown (Str "Invalid category type."))
  else if negb (includes ["unstructured"; "structured"] studyType)
  then throw (Thrown (Str "Invalid study type"))
  else
    let body := Obj [("id", Str id);
                     ("studyType", studyType);
                     ("name", Str name);
                     ("description", Str description);
                     ("projectId", Arr [Str projectId]);
                     ("category", category);
                     ("uploadLocationEnabled", uploadLocationEnabled)] in
    ret (
      this0 <- get_this ;;
      if dryrun this0 then resolve body
      else
        r <- fetch (api this0 ++ "/api/studies") "POST" (auth_headers this0)
               (JSON_stringify body) ;;
        resolve_json r).

Definition getStudyPermissions (studyId : string) : operation :=
  ret (
    this0 <- get_this ;;
    r <- fetch (api this0 ++ "/api/studies/" ++ studyId ++ "/permissions") "GET"
           (auth_headers this0) Undefined ;;
    resolve_json r).

(** [p.hasOwnProperty('code')]: a parsed object that has a property
    named [hasOwnProperty] of its own hides the method, and the call
    throws. *)
Definition hasOwnProperty (k : string) (p : value) : completion bool :=
  match p with
  | Undefined | Null => Abrupt TypeError
  | Obj o => if has_field "hasOwnProperty" o then Abrupt TypeError
             else Normal (has_field k o)
  | _ => Normal false
  end.

Definition addRemoveStudyPermission (studyId userId : string)
    (action permissionLevel : value) : operation :=
  let permissionLevel := or_default (Str "readonly") permissionLevel in
  if negb (includes ["readonly"; "admin"] permissionLevel)
  then throw (Thrown (Str "Invalid permission level"))
  else if negb (includes ["add"; "remove"] action)
  then throw (Thrown (Str "Invalid action"))
  else
    let entry := Obj [("uid", Str userId); ("permissionLevel", permissionLevel)] in
    let body :=
      if loose_eq_str action "add"
      then Obj [("usersToAdd", Arr [entry]); ("usersToRemove", Arr [])]
      else Obj [("usersToAdd", Arr []); ("usersToRemove", Arr [entry])] in
    ret (
      this0 <- get_this ;;
      if dryrun this0 then resolve body
      else
        r <- fetch (api this0 ++ "/api/studies/" ++ studyId ++ "/permissions") "PUT"
               (auth_headers this0) (JSON_stringify body) ;;
        p <- json r ;;
        has_code <- lift (hasOwnProperty "code" p) ;;
        if (has_code : bool) then
          message <- get "message" p ;;
          reject message
        else resolve p).

Definition getWorkspaceTypes : operation :=
  ret (
    this0 <- get_this ;;
    r <- fetch (api this0 ++ "/api/workspace-types?status=*") "GET"
           (auth_headers this0) Undefined ;;
    resolve_json r).

Definition getWorkspaceConfigurations (workspaceType : string) : operation :=
  ret (
    this0 <- get_this ;;
    r <- fetch (api this0 ++ "/api/workspace-types/" ++ workspaceType
                  ++ "/configurations/?include=all") "GET"
           (auth_headers this0) Undefined ;;
    resolve_json r).

(** [workspaceConfObj] is the one argument a method writes to, so it is
    passed as a reference into the caller's heap; the arguments other
    methods only read are passed by value. *)
Definition updateWorkspaceConfiguration (workspaceType : string)
    (workspaceConfObj : loc) : operation :=
  delete_prop workspaceConfObj "createdBy" ;;
  delete_prop workspaceConfObj "updatedBy" ;;
  delete_prop workspaceConfObj "createdAt" ;;
  delete_prop workspaceConfObj "updatedAt" ;;
  delete_prop workspaceConfObj "allowedToUse" ;;
  ret (
    this0 <- get_this ;;
    conf <- read workspaceConfObj ;;
    id <- get "id" conf ;;
    r <- fetch (api this0 ++ "/api/workspace-types/" ++ workspaceType
                  ++ "/configurations/" ++ ToString id) "PUT"
           (auth_headers this0) (JSON_stringify conf) ;;
    resolve_json r).

End Client.

(** ** Running a call *)

(** What the caller of a method observes: the call threw, or it
    returned a promise, in the state the promise ends up in. *)
Inductive outcome : Type :=
| Threw (e : exn)
| Returned (p : promise).

(** [unhandled] is the rejection of the inner chain of callbacks when an
    exception ends it: nothing in the class catches it. *)
Record completed : Type := mkCompleted {
  result : outcome;
  unhandled : option exn;
  final : world
}.

(** A new call: the requests of the previous one become history, and a
    fresh promise is pending. *)
Definition begin (w : world) : world :=
  {| this := this w; heap := heap w; history := history w ++ sent w;
     sent := []; settled := Pending |}.

Definition call (op : operation) (net : transport) (w : world) : completed :=
  match op net (begin w) with
  | (Abrupt e, w1) => {| result := Threw e; unhandled := None; final := w1 |}
  | (Normal chain, w1) =>
      match chain net w1 with
      | (Normal _, w2) =>
          {| result := Returned (settled w2); unhandled := None; final := w2 |}
      | (Abrupt e, w2) =>
          {| result := Returned (settled w2); unhandled := Some e; final := w2 |}
      end
  end.

(** The requests a call made. *)
Definition requests (c : completed) : list request := sent (final c).

(** A client that has made no call yet. *)
Definition fresh (s : SWB) (h : gmap loc value) : world :=
  {| this := s; heap := h; history := []; sent := []; settled := Pending |}.

Definition with_dryrun (b : bool) (s : SWB) : SWB :=
  {| api := api s; username := username s; password := password s;
     token := token s; authProviders := authProviders s;
     authenticated := authenticated s; dryrun := b |}.

Definition with_token (t : value) (s : SWB) : SWB :=
  {| api := api s; username := username s; password := password s;
     token := t; authProviders := authProviders s;
     authenticated := authenticated s; dryrun := dryrun s |}.

Definition on_client (s : SWB) (w : world) : world :=
  {| this := s; heap := heap w; history := history w; sent := sent w;
     settled := settled w |}.

(** ** The authenticated methods as one family *)

(** Every public method except [login] and [getIdp], with its
    arguments. *)
Inductive invocation : Type :=
| AddFederatedUser (idp : value) (adpUrl email : string) (role : value)
| GetUserByEmailAndIdp (email idpName : string)
| UpdateUserDetails (uid firstname surname status userRole : string)
| AddRemoveProjectUser (projectId uid : string) (action : value)
| GetProject (projectId : string)
| UpdateProject (proj : value)
| GetProjects
| CreateProject (projectId description : string) (index admins : value)
| GetStudies (category : value)
| GetStudy (studyId : string)
| CreateStudy (id name description projectId : string)
    (category studyType uploadLocationEnabled : value)
| GetStudyPermissions (studyId : string)
| AddRemoveStudyPermission (studyId userId : string)
    (action permissionLevel : value)
| GetWorkspaceTypes
| GetWorkspaceConfigurations (workspaceType : string)
| UpdateWorkspaceConfiguration (workspaceType : string) (workspaceConfObj : loc).

Definition perform (StringToNumber : string -> option Z) (i : invocation)
  : operation :=
  match i with
  | AddFederatedUser idp adpUrl email role => addFederatedUser idp adpUrl email role
  | GetUserByEmailAndIdp email idpName =>
      getUserByEmailAndIdp StringToNumber email idpName
  | UpdateUserDetails uid firstname surname status userRole =>
      updateUserDetails uid firstname surname status userRole
  | AddRemoveProjectUser projectId uid action =>
      addRemoveProjectUser projectId uid action
  | GetProject projectId => getProject projectId
  | UpdateProject proj => updateProject proj
  | GetProjects => getProjects
  | CreateProject projectId description index admins =>
      createProject projectId description index admins
  | GetStudies category => getStudies category
  | GetStudy studyId => getStudy studyId
  | CreateStudy id name description projectId category studyType
      uploadLocationEnabled =>
      createStudy id name description projectId category studyType
        uploadLocationEnabled
  | GetStudyPermissions studyId => getStudyPermissions studyId
  | AddRemoveStudyPermission studyId userId action permissionLevel =>
      addRemoveStudyPermission StringToNumber studyId userId action permissionLevel
  | GetWorkspaceTypes => getWorkspaceTypes
  | GetWorkspaceConfigurations workspaceType =>
      getWorkspaceConfigurations workspaceType
  | UpdateWorkspaceConfiguration workspaceType workspaceConfObj =>
      updateWorkspaceConfiguration workspaceType workspaceConfObj
  end.

(** The methods that create or update something on the service. *)
Definition mutating (i : invocation) : bool :=
  match i with
  | AddFederatedUser _ _ _ _ | UpdateUserDetails _ _ _ _ _
  | AddRemoveProjectUser _ _ _ | UpdateProject _ | CreateProject _ _ _ _
  | CreateStudy _ _ _ _ _ _ _ | AddRemoveStudyPermission _ _ _ _
  | UpdateWorkspaceConfiguration _ _ => true
  | _ => false
  end.

(** The methods whose code consults [this.dryrun]. *)
Definition guarded_by_dryrun (i : invocation) : bool :=
  match i with
  | UpdateWorkspaceConfiguration _ _ => false
  | _ => mutating i
  end.

(** ** [getIdp], the one [async] method

    An [async] method has no executor: its body runs up to its end, or
    up to the first failure, and the promise it returns is settled by
    that outcome. *)

(** [this.#authProviders = data] *)
Definition set_authProviders (data : value) : M unit :=
  fun _ w =>
    (Normal tt,
     {| this := {| api := api (this w); username := username (this w);
                   password := password (this w); token := token (this w);
                   authProviders := data;
                   authenticated := authenticated (this w);
                   dryrun := dryrun (this w) |};
        heap := heap w; history := history w; sent := sent w;
        settled := settled w |}).

(** [idp => idp.id === name] *)
Definition has_id (name : string) (idp : value) : completion bool :=
  match prop "id" idp with
  | Normal x => Normal (strict_eq_str x name)
  | Abrupt e => Abrupt e
  end.

(** The body of the [async] method: the value its promise is resolved
    with, or the exception it is rejected with. [fetch] is called
    without an [init]: a GET with no headers and no body. *)
Definition getIdp (name : string) : M value :=
  this0 <- get_this ;;
  (if negb (truthy (authProviders this0)) then
     response <- fetch (api this0 ++ "/api/authentication/public/provider/configs")
                   "GET" [] Undefined ;;
     data <- json response ;;
     set_authProviders data
   else ret tt) ;;
  this1 <- get_this ;;
  find (has_id name) (authProviders this1).

(** Calling an [async] method: whatever its body throws, before or
    after an [await], rejects the promise it returns. *)
Definition call_async (body : M value) (net : transport) (w : world)
  : completed :=
  match body net (begin w) with
  | (Normal v, w1) =>
      {| result := Returned (Fulfilled v); unhandled := None;
         final := {| this := this w1; heap := heap w1; history := history w1;
                     sent := sent w1; settled := Fulfilled v |} |}
  | (Abrupt e, w1) =>
      {| result := Returned (Rejected e); unhandled := None;
         final := {| this := this w1; heap := heap w1; history := history w1;
                     sent := sent w1; settled := Rejected e |} |}
  end.

(** * The vocabulary of the properties *)

(** ** Requests *)

Definition get_request (s : SWB) (path : string) : request :=
  {| url := api s ++ path; method := "GET"; headers := auth_headers s;
     body := Undefined |}.

(** ** Strings *)

(** Number of positions of [hay] at which [needle] starts. *)
Fixpoint occurrences (needle hay : string) : nat :=
  match hay with
  | EmptyString => 0
  | String _ hay' =>
      (if String.prefix needle hay then 1 else 0) + occurrences needle hay'
  end.

(** ** Objects and [JSON.stringify] *)

Definition stringify_props : list (string * value) -> list (string * value) :=
  fix props (o : list (string * value)) : list (string * value) :=
    match o with
    | [] => []
    | (k, Undefined) :: o' => props o'
    | (k, x) :: o' => (k, JSON_stringify x) :: props o'
    end.

(** A JSON document: no [undefined] anywhere in it. *)
Fixpoint is_json (v : value) : bool :=
  match v with
  | Undefined => false
  | Arr l => forallb is_json l
  | Obj o => forallb (fun kv => is_json (snd kv)) o
  | _ => true
  end.

(** ** [updateWorkspaceConfiguration] *)

Definition server_managed : list string :=
  ["createdBy"; "updatedBy"; "createdAt"; "updatedAt"; "allowedToUse"].

(** The five [delete] statements, in order. *)
Definition strip_server_managed (o : list (string * value))
  : list (string * value) :=
  delete_field "allowedToUse"
    (delete_field "updatedAt"
       (delete_field "createdAt"
          (delete_field "updatedBy" (delete_field "createdBy" o)))).

(** The request [updateWorkspaceConfiguration] makes for an object [o]. *)
Definition configuration_request (s : SWB) (workspaceType : string)
    (o : list (string * value)) : request :=
  {| url := api s ++ "/api/workspace-types/" ++ workspaceType
              ++ "/configurations/" ++ ToString (field "id" (strip_server_managed o));
     method := "PUT";
     headers := auth_headers s;
     body := JSON_stringify (Obj (strip_server_managed o)) |}.

(** Sample data for the concrete instances below. *)
Definition sample_client : SWB := constructor "https://swb" "admin" "secret".

Definition sample_configuration : list (string * value) :=
  [("id", Str "c-1"); ("createdBy", Str "u-1"); ("desc", Str "small");
   ("updatedAt", Str "2023-01-01"); ("allowedToUse", Arr [Str "admin"])].

Definition ok (v : value) : option response :=
  Some {| status := 200; parsed := Some v |}.

(** ** [login] *)

Definition login_request (s : SWB) : request :=
  {| url := api s ++ "/api/authentication/id-tokens";
     method := "POST";
     headers := [("Content-Type", Str "application/json")];
     body := Obj [("username", Str (username s));
                  ("password", Str (password s));
                  ("authenticationProvider", Str "internal")] |}.

(** The state of a call that has made the requests [reqs] so far. *)
Definition after (w : world) (reqs : list request) : world :=
  {| this := this w; heap := heap w; history := history w ++ sent w;
     sent := reqs; settled := Pending |}.

(** ** Sorting lists of project ids *)

(** [sort] on an array of strings, seen on the strings themselves. *)
Fixpoint insert_string (x : string) (l : list string) : list string :=
  match l with
  | [] => [x]
  | y :: l' => if (x <=? y) then x :: y :: l' else y :: insert_string x l'
  end.

Definition sort_strings (l : list string) : list string :=
  fold_right insert_string [] l.

Definition string_le (x y : string) : Prop := (x <=? y) = true.

(** ** [addRemoveProjectUser] *)

(** How often the id [p] occurs in an array. *)
Definition occurrences_of (p : string) (l : list value) : nat :=
  length (List.filter (fun v => strict_eq_str v p) l).

(** What [JSON.stringify] does to the elements of an array. *)
Definition stringify_element (x : value) : value :=
  match x with
  | Undefined => Null
  | _ => JSON_stringify x
  end.

(** The request that fetches the whole user collection. *)
Definition users_request (s : SWB) : request := get_request s "/api/users".

Definition sample_world : world := fresh sample_client ∅.

(** A user record as the service returns it, cut down to the properties
    [addRemoveProjectUser] is concerned with. *)
Definition user_with_projects (ids : list string) : list (string * value) :=
  [("uid", Str "u-1"); ("email", Str "a@b.com"); ("rev", Num 3);
   ("projectId", Arr (List.map Str ids))].

(** A transport that serves one fixed user collection. *)
Definition serving (users : list value) : transport :=
  fun _ _ => ok (Arr users).

Definition set_equal (l1 l2 : list value) : Prop :=
  forall x, In x l1 <-> In x l2.

Definition no_write (reqs : list request) : Prop :=
  forallb (fun q => negb (is_write q)) reqs = true.

(** C3 as the specification words it: whenever the rebuilt list and the
    fetched list have the same elements, no write is made and the
    promise resolves with the record exactly as it was fetched. *)
Definition short_circuit_returns_record_as_fetched : Prop :=
  forall (net : transport) (w : world) (projectId uid : string) (action : value)
         (r : response) (users : list value) (o : list (string * value))
         (ids : list value),
    answer net (begin w) (users_request (this w)) = Some r ->
    parsed r = Some (Arr users) ->
    find_in (has_uid uid) users = Normal (Obj o) ->
    field "projectId" o = Arr ids ->
    set_equal (rebuilt_projectId projectId (or_default (Str "add") action) ids) ids ->
    let c := call (addRemoveProjectUser projectId uid action) net w in
    no_write (requests c) /\ result c = Returned (Fulfilled (Obj o)).

(** ** A redundant "add", twice *)

(** A service whose user collection changes only when something is
    written: its answer to the request for the users is determined by
    the writes made so far. *)
Definition users_change_only_by_writes (net : transport) (s : SWB) : Prop :=
  forall h1 h2 : list request,
    List.filter is_write h1 = List.filter is_write h2 ->
    net h1 (users_request s) = net h2 (users_request s).

(** C7 as the specification words it: "add" twice for a user whose
    fetched list contains the project leaves the served list as it was,
    and the second call writes nothing. *)
Definition redundant_add_leaves_list_unchanged : Prop :=
  forall (net : transport) (w : world) (p uid : string) (r : response)
         (users : list value) (o : list (string * value)) (ids : list value),
    users_change_only_by_writes net (this w) ->
    answer net (begin w) (users_request (this w)) = Some r ->
    parsed r = Some (Arr users) ->
    find_in (has_uid uid) users = Normal (Obj o) ->
    field "projectId" o = Arr ids ->
    In (Str p) ids ->
    let c1 := call (addRemoveProjectUser p uid (Str "add")) net w in
    let c2 := call (addRemoveProjectUser p uid (Str "add")) net (final c1) in
    answer net (begin (final c2)) (users_request (this w)) = Some r
    /\ no_write (requests c2).

(** A service that holds one user, listed twice in project "p", and
    stores what is written to it: after a PUT the user is listed once. *)
Definition storing_service : transport :=
  fun h _ =>
    if existsb is_write h
    then ok (Arr [Obj (user_with_projects ["p"])])
    else ok (Arr [Obj (user_with_projects ["p"; "p"])]).

(** ** The list in the update payload *)

(** [v.k] on a request body. *)
Definition property (k : string) (v : value) : value :=
  match v with
  | Obj o => field k o
  | _ => Undefined
  end.

(** ** [getUserByEmailAndIdp] *)

(** A record of the fetched collection in which [email] and
    [identityProviderName] are strings, as the [User] type documents. *)
Definition user_record (u : value) : bool :=
  match u with
  | Obj o =>
      match field "email" o, field "identityProviderName" o with
      | Str _, Str _ => true
      | _, _ => false
      end
  | _ => false
  end.

(** The record has exactly this email and this identity provider. *)
Definition exact_match (email idpName : string) (u : value) : bool :=
  match u with
  | Obj o => strict_eq_str (field "email" o) email
             && strict_eq_str (field "identityProviderName" o) idpName
  | _ => false
  end.

Definition found (u : option value) : value :=
  match u with
  | Some v => v
  | None => Undefined
  end.

Definition contains (needle hay : string) : Prop :=
  exists before behind : string, hay = (before ++ needle ++ behind)%string.

Definition alice : value :=
  Obj [("uid", Str "u-1"); ("email", Str "a@b.com");
       ("identityProviderName", Str "idpX")].

Definition bob : value :=
  Obj [("uid", Str "u-2"); ("email", Str "b@b.com");
       ("identityProviderName", Str "idpX")].

(** ** The whole family: tokens and dry runs *)

(** The request carries no token. *)
Definition unauthenticated (q : request) : Prop :=
  field "Authorization" (headers q) = Undefined.

(** The request without its [Authorization] header. *)
Definition without_authorization (q : request) : request :=
  {| url := url q; method := method q;
     headers := List.filter (fun h => negb (fst h =? "Authorization")) (headers q);
     body := body q |}.

(** A service that does not look at the [Authorization] header, of the
    request or of those before it. *)
Definition token_blind (net : transport) : transport :=
  fun earlier q =>
    net (List.map without_authorization earlier) (without_authorization q).

(** The address of the methods that only fetch and resolve. *)
Definition plain_read (i : invocation) : option string :=
  match i with
  | GetProject projectId => Some ("/api/projects/" ++ projectId)%string
  | GetProjects => Some "/api/projects"
  | GetStudy studyId => Some ("/api/studies/" ++ studyId)%string
  | GetStudyPermissions studyId =>
      Some ("/api/studies/" ++ studyId ++ "/permissions")%string
  | GetWorkspaceTypes => Some "/api/workspace-types?status=*"
  | GetWorkspaceConfigurations workspaceType =>
      Some ("/api/workspace-types/" ++ workspaceType
              ++ "/configurations/?include=all")%string
  | _ => None
  end.

(** C4 as the specification words it: without a token, every
    authenticated method fails. *)
Definition token_is_required : Prop :=
  forall (StringToNumber : string -> option Z) (i : invocation)
         (net : transport) (w : world),
    token (this w) = Undefined ->
    exists e : exn,
      result (call (perform StringToNumber i) net w) = Threw e
      \/ result (call (perform StringToNumber i) net w) = Returned (Rejected e).

(** The methods that build their payload from the arguments alone. *)
Definition builds_payload_from_arguments (i : invocation) : bool :=
  match i with
  | AddFederatedUser _ _ _ _ | UpdateProject _ | CreateProject _ _ _ _
  | CreateStudy _ _ _ _ _ _ _ | AddRemoveStudyPermission _ _ _ _ => true
  | _ => false
  end.

(** ** The rest of the class *)

(** The request goes to the service of the client [s] and carries its
    two headers. *)
Definition addressed_by (s : SWB) (q : request) : Prop :=
  headers q = auth_headers s
  /\ exists path : string, url q = (api s ++ path)%string.

(** The one method that changes an object of its caller is
    [updateWorkspaceConfiguration]. *)
Definition leaves_heap_alone (i : invocation) : bool :=
  match i with
  | UpdateWorkspaceConfiguration _ _ => false
  | _ => true
  end.



(** The request of [getIdp]: the public endpoint, without headers. *)
Definition providers_request (s : SWB) : request :=
  {| url := api s ++ "/api/authentication/public/provider/configs";
     method := "GET"; headers := []; body := Undefined |}.

(** The client with [data] as its provider cache. *)
Definition with_authProviders (data : value) (s : SWB) : SWB :=
  {| api := api s; username := username s; password := password s;
     token := token s; authProviders := data;
     authenticated := authenticated s; dryrun := dryrun s |}.

(** The promise of an [async] body that completed with [c]. *)
Definition settled_by (c : completion value) : promise :=
  match c with
  | Normal v => Fulfilled v
  | Abrupt e => Rejected e
  end.

(** Objects, as against primitives and arrays. *)
Definition is_object (v : value) : bool :=
  match v with
  | Obj _ => true
  | _ => false
  end.

(** The request for the caller's profile, carrying the token [t]. *)
Definition profile_request (t : value) (s : SWB) : request :=
  get_request (with_token t s) "/api/user".

(** The message [addRemoveProjectUser] rejects with when no record has
    the uid. *)
Definition not_found_message (projectId uid : string) (action : value) : string :=
  "uid " ++ uid ++ " not found while " ++ ToString (or_default (Str "add") action)
    ++ " to/from " ++ projectId.

(** Arrays. *)
Definition is_array (v : value) : bool :=
  match v with
  | Arr _ => true
  | _ => false
  end.

(** The payload [u2] built from the fetched record [o]. *)
Definition details_payload (o : list (string * value))
    (firstname surname status userRole : string) : value :=
  Obj [("applyReason", field "applyReason" o);
       ("email", field "email" o);
       ("firstName", Str firstname);
       ("isAdmin", field "isAdmin" o);
       ("isExternalUser", field "isExternalUser" o);
       ("lastName", Str surname);
       ("projectId", field "projectId" o);
       ("rev", field "rev" o);
       ("status", Str status);
       ("userRole", Str userRole)].

(** The request [updateUserDetails] makes with its payload. *)
Definition details_request (s : SWB) (uid : string) (payload : value) : request :=
  {| url := api s ++ "/api/users/" ++ uid; method := "PUT";
     headers := auth_headers s; body := JSON_stringify payload |}.

(** What [JSON.stringify] makes of the value of a property. *)
Definition stringify_property (x : value) : value :=
  match x with
  | Undefined => Undefined
  | _ => JSON_stringify x
  end.

(** The properties [updateUserDetails] copies from the fetched record. *)
Definition copied_properties : list string :=
  ["applyReason"; "email"; "isAdmin"; "isExternalUser"; "projectId"; "rev"].

(** The properties [updateProject] copies from its argument. *)
Definition editable_project_properties : list string :=
  ["description"; "id"; "indexId"; "projectAdmins"; "rev"].

(** The values the argument checks accept. *)
Definition study_categories : list string := ["Organization"; "My Studies"].

Definition study_types : list string := ["unstructured"; "structured"].

Definition permission_levels : list string := ["readonly"; "admin"].

Definition permission_actions : list string := ["add"; "remove"].

(** The body [addRemoveStudyPermission] builds. *)
Definition permission_body (userId : string) (add : bool) (level : string) : value :=
  let entry := Obj [("uid", Str userId); ("permissionLevel", Str level)] in
  if add
  then Obj [("usersToAdd", Arr [entry]); ("usersToRemove", Arr [])]
  else Obj [("usersToAdd", Arr []); ("usersToRemove", Arr [entry])].

(** The request [addRemoveStudyPermission] makes. *)
Definition permissions_request (s : SWB) (studyId : string) (payload : value)
  : request :=
  {| url := api s ++ "/api/studies/" ++ studyId ++ "/permissions";
     method := "PUT"; headers := auth_headers s;
     body := JSON_stringify payload |}.

(** Some code unit of the string has a lower case. *)
Fixpoint has_upper (s : string) : bool :=
  match s with
  | EmptyString => false
  | String c s' => is_upper c || has_upper s'
  end.

(** The properties [addRemoveProjectUser] copies from the fetched
    record. *)
Definition carried_over : list string :=
  ["applyReason"; "email"; "firstName"; "isAdmin"; "isExternalUser"; "lastName";
   "rev"; "status"; "userRole"].

(** Every id weighs its length and one separator. *)
Definition weight (ss : list string) : nat :=
  list_sum (List.map (fun s => S (String.length s)) ss).

(** How often the action wants the project in the list. *)
Definition expected_count (action : value) : nat :=
  if strict_eq_str action "add" then 1 else 0.

(** ** Sample services *)

(** Answers reads with [v] and everything else with [r]. *)
Definition reading (v : value) (r : option response) : transport :=
  fun _ q => if (method q =? "GET")%string then ok v else r.

(** The service of the login scenario: the token "T", then the profile
    of "u-1". *)
Definition login_service : transport :=
  fun _ q =>
    if (method q =? "POST")%string
    then ok (Obj [("idToken", Str "T")])
    else ok (Obj [("uid", Str "u-1")]).

(** The same, with the profile out of reach. *)
Definition login_only_service : transport :=
  fun _ q =>
    if (method q =? "POST")%string
    then ok (Obj [("idToken", Str "T")])
    else None.

(** The service of the login scenario when the profile is refused: the
    token "T", then status 401 with a JSON body. *)
Definition refusing_profile_service : transport :=
  fun _ q =>
    if (method q =? "POST")%string
    then ok (Obj [("idToken", Str "T")])
    else Some {| status := 401; parsed := Some (Obj [("message", Str "denied")]) |}.

(** Two identity providers. *)
Definition sample_providers : list value :=
  [Obj [("id", Str "internal"); ("title", Str "Default")];
   Obj [("id", Str "idpX"); ("title", Str "Federation")]].

(** An answer that reports a failure and has no JSON body. *)
Definition failed : response := {| status := 500; parsed := None |}.

(** The sample client with [dryrun] set, and no objects. *)
Definition dry_world : world := fresh (with_dryrun true sample_client) ∅.

(** The sample client with the two providers cached. *)
Definition cached_world : world :=
  fresh (with_authProviders (Arr sample_providers) sample_client) ∅.

(** A project as the service returns it. *)
Definition sample_project : list (string * value) :=
  [("id", Str "p-1"); ("description", Str "Pilot"); ("indexId", Str "i-1");
   ("projectAdmins", Arr [Str "u-1"]); ("rev", Num 2);
   ("createdBy", Str "u-0")].

(** An answer that reports a refusal in its body. *)
Definition refusal : list (string * value) :=
  [("code", Str "forbidden"); ("message", Str "not yours")].

(** A user collection in which "u-1" is listed for project "c" twice. *)
Definition duplicated_membership : list value :=
  [Obj (user_with_projects ["c"; "a"; "c"])].

(** * Properties *)

(** ** Values *)

Example encodeURI_My_Studies : encodeURI "My Studies" = "My%20Studies".
Proof. reflexivity. Qed.

Example ToString_numbers :
  List.map (fun n => ToString (Num n))
    [0; -12; 2 ^ 53; 2 ^ 60; 10 ^ 20; 10 ^ 21; 2 ^ 70]%Z
  = ["0"; "-12"; "9007199254740992"; "1152921504606847000";
     "100000000000000000000"; "1e+21"; "1.1805916207174113e+21"].
Proof. vm_compute. reflexivity. Qed.

Example encodeURI_Latin1 :
  encodeURI (String (ascii_of_nat 201) "t" ++ String (ascii_of_nat 233) "")
  = "%C3%89t%C3%A9".
Proof. reflexivity. Qed.

Example toLowerCase_Latin1 :
  toLowerCase (String (ascii_of_nat 201) "ric@B.com")
  = String (ascii_of_nat 233) "ric@b.com".
Proof. reflexivity. Qed.

Example ToString_nested :
  ToString (Arr [Num (-12); Null; Arr [Str "a"; Bool true]]) = "-12,,a,true".
Proof. reflexivity. Qed.

Example sort_example :
  sort [Str "b"; Undefined; Str "a"; Num 10; Num 9]
  = [Num 10; Num 9; Str "a"; Str "b"; Undefined].
Proof. reflexivity. Qed.

(** ** Stepping through a call *)

Ltac unfold_runtime :=
  unfold call, requests, begin, get_request, resolve_json, resolve,
    resolve_response, reject, get, find, elements_of, delete_prop, json,
    fetch, read, write, settle, get_this, set_token, lift, throw, ret, bind
    in *.

(** Reduction of the state record and of the matches it unblocks,
    leaving the functions on values folded. *)
Ltac reduce :=
  cbn [this heap history sent settled result unhandled final fst snd app
       api username password token dryrun prop set_prop] in *.

(** Case analysis on what the transport answers and on whether the
    answer parses. *)
Ltac step :=
  match goal with
  | H : answer ?n ?w ?r = _ |- context [answer ?n ?w ?r] => rewrite H
  | H : parsed ?r = _ |- context [parsed ?r] => rewrite H
  | |- context [match answer ?n ?w ?r with _ => _ end] =>
      destruct (answer n w r) eqn:?
  | |- context [match parsed ?r with _ => _ end] => destruct (parsed r) eqn:?
  end; simpl.

(** ** [getStudies]: the category is validated, then encoded *)

(** C5. For a category in {"Organization", "My Studies"}, [getStudies]
    makes one request, whose query string is [category=] followed by the
    percent-encoded category, which therefore occurs in it exactly once;
    for every other string it throws "Invalid category type."
    synchronously and makes no request. *)
Theorem getStudies_validates_and_encodes_category :
  forall (category : string) (net : transport) (w : world),
    let c := call (getStudies (Str category)) net w in
    (In category ["Organization"; "My Studies"] ->
       let query := ("category=" ++ encodeURI category)%string in
       requests c = [get_request (this w) ("/api/studies/?" ++ query)]
       /\ occurrences (encodeURI category) query = 1
       /\ (forall e, result c <> Threw e))
    /\ (~ In category ["Organization"; "My Studies"] ->
          result c = Threw (Thrown (Str "Invalid category type."))
          /\ requests c = []).
Proof.
  intros category net w c. subst c. split.
  - intros [<- | [<- | []]]; unfold getStudies; simpl; unfold_runtime; simpl;
      repeat step; (split; [reflexivity | split; [reflexivity | intros e He; discriminate He]]).
  - intros Hnot. unfold getStudies, includes. cbn.
    destruct (String.eqb_spec category "Organization") as [-> | _].
    { exfalso. apply Hnot. now left. }
    destruct (String.eqb_spec category "My Studies") as [-> | _].
    { exfalso. apply Hnot. right. now left. }
    unfold_runtime. simpl. split; reflexivity.
Qed.

Lemma getStudies_validates_and_encodes_category_witness :
  requests (call (getStudies (Str "My Studies")) (fun _ _ => None)
              (fresh (constructor "https://swb" "admin" "pw") ∅))
  = [get_request (constructor "https://swb" "admin" "pw")
       "/api/studies/?category=My%20Studies"]
  /\ result (call (getStudies (Str "Mine")) (fun _ _ => None)
               (fresh (constructor "https://swb" "admin" "pw") ∅))
     = Threw (Thrown (Str "Invalid category type.")).
Proof.
  pose proof (getStudies_validates_and_encodes_category "My Studies"
                (fun _ _ => None)
                (fresh (constructor "https://swb" "admin" "pw") ∅)) as [Hin _].
  pose proof (getStudies_validates_and_encodes_category "Mine"
                (fun _ _ => None)
                (fresh (constructor "https://swb" "admin" "pw") ∅)) as [_ Hout].
  split.
  - apply Hin. simpl. right. left. reflexivity.
  - apply Hout. simpl. intros [H | [H | []]]; discriminate H.
Defined.

(** ** Objects and [JSON.stringify] *)

Lemma JSON_stringify_Obj (o : list (string * value)) :
  JSON_stringify (Obj o) = Obj (stringify_props o).
Proof. reflexivity. Qed.

Lemma has_field_delete_field_same (k : string) (o : list (string * value)) :
  has_field k (delete_field k o) = false.
Proof.
  induction o as [| [k' v] o IH]; simpl; [reflexivity |].
  destruct (String.eqb_spec k k') as [-> | Hne]; simpl; [exact IH |].
  destruct (String.eqb_spec k k'); [contradiction | exact IH].
Qed.

Lemma has_field_delete_field_other (k k' : string) (o : list (string * value)) :
  k <> k' -> has_field k (delete_field k' o) = has_field k o.
Proof.
  intros Hne. induction o as [| [k0 v] o IH]; simpl; [reflexivity |].
  destruct (String.eqb_spec k' k0) as [-> | Hne0]; simpl.
  - destruct (String.eqb_spec k k0); [contradiction | exact IH].
  - now rewrite IH.
Qed.

Lemma field_delete_field_other (k k' : string) (o : list (string * value)) :
  k <> k' -> field k (delete_field k' o) = field k o.
Proof.
  intros Hne. induction o as [| [k0 v] o IH]; simpl; [reflexivity |].
  destruct (String.eqb_spec k' k0) as [-> | Hne0]; simpl.
  - destruct (String.eqb_spec k k0); [contradiction | exact IH].
  - now rewrite IH.
Qed.

Lemma has_field_false_delete_field (k k' : string) (o : list (string * value)) :
  has_field k o = false -> has_field k (delete_field k' o) = false.
Proof.
  intros H. destruct (String.eqb_spec k k') as [-> | Hne].
  - apply has_field_delete_field_same.
  - now rewrite has_field_delete_field_other.
Qed.

Lemma stringify_props_delete_field (k : string) (o : list (string * value)) :
  stringify_props (delete_field k o) = delete_field k (stringify_props o).
Proof.
  induction o as [| [k' v] o IH]; simpl; [reflexivity |].
  destruct (String.eqb_spec k k') as [-> | Hne]; simpl.
  - destruct v; simpl; rewrite ?String.eqb_refl; simpl; exact IH.
  - destruct v; simpl; try exact IH;
      (destruct (String.eqb_spec k k'); [contradiction |]; simpl; now rewrite IH).
Qed.

Section ValueInduction.

Variable P : value -> Prop.
Hypothesis P_Undefined : P Undefined.
Hypothesis P_Null : P Null.
Hypothesis P_Bool : forall b, P (Bool b).
Hypothesis P_Num : forall n, P (Num n).
Hypothesis P_Str : forall s, P (Str s).
Hypothesis P_Arr : forall l, List.Forall P l -> P (Arr l).
Hypothesis P_Obj :
  forall o, List.Forall (fun kv => P (snd kv)) o -> P (Obj o).

(** Induction on values that reaches the elements of arrays and the
    properties of objects. *)
Fixpoint value_nested_ind (v : value) : P v :=
  match v with
  | Undefined => P_Undefined
  | Null => P_Null
  | Bool b => P_Bool b
  | Num n => P_Num n
  | Str s => P_Str s
  | Arr l =>
      P_Arr l
        ((fix elements (l : list value) : List.Forall P l :=
            match l with
            | [] => @List.Forall_nil _ P
            | x :: l' =>
                @List.Forall_cons _ P x l' (value_nested_ind x) (elements l')
            end) l)
  | Obj o =>
      P_Obj o
        ((fix properties (o : list (string * value))
            : List.Forall (fun kv => P (snd kv)) o :=
            match o with
            | [] => @List.Forall_nil _ _
            | (k, x) :: o' =>
                @List.Forall_cons _ (fun kv => P (snd kv)) (k, x) o'
                  (value_nested_ind x) (properties o')
            end) o)
  end.

End ValueInduction.

Lemma JSON_stringify_Arr_elements (l : list value) :
  JSON_stringify (Arr l)
  = Arr (List.map (fun x => match x with
                            | Undefined => Null
                            | _ => JSON_stringify x
                            end) l).
Proof. reflexivity. Qed.

(** Serialising a JSON document gives the document back. *)
Lemma JSON_stringify_json (v : value) :
  is_json v = true -> JSON_stringify v = v.
Proof.
  induction v as [| | b | n | s | l IH | o IH] using value_nested_ind;
    try reflexivity; try discriminate.
  - intros H. rewrite JSON_stringify_Arr_elements. f_equal.
    cbn [is_json] in H.
    induction IH as [| x l Hx _ IHl]; [reflexivity |].
    cbn [forallb] in H. apply andb_prop in H as [H1 H2].
    cbn [List.map]. rewrite IHl by exact H2. f_equal.
    destruct x; try discriminate H1; apply Hx; exact H1.
  - intros H. rewrite JSON_stringify_Obj. f_equal.
    cbn [is_json] in H.
    induction IH as [| [k x] o Hx _ IHo]; [reflexivity |].
    cbn [forallb snd] in H. apply andb_prop in H as [H1 H2].
    cbn [snd] in Hx.
    destruct x; try discriminate H1; cbn [stringify_props];
      rewrite IHo by exact H2; f_equal; f_equal; apply Hx; exact H1.
Qed.

Lemma stringify_props_json (o : list (string * value)) :
  is_json (Obj o) = true -> stringify_props o = o.
Proof.
  intros H. apply JSON_stringify_json in H.
  rewrite JSON_stringify_Obj in H. now injection H.
Qed.

(** ** [updateWorkspaceConfiguration] *)

Lemma strip_server_managed_removes (k : string) (o : list (string * value)) :
  In k server_managed -> has_field k (strip_server_managed o) = false.
Proof.
  unfold server_managed, strip_server_managed.
  intros [<- | [<- | [<- | [<- | [<- | []]]]]];
    repeat first [ apply has_field_delete_field_same
                 | apply has_field_false_delete_field ].
Qed.

Lemma strip_server_managed_keeps (k : string) (o : list (string * value)) :
  ~ In k server_managed ->
  field k (strip_server_managed o) = field k o
  /\ has_field k (strip_server_managed o) = has_field k o.
Proof.
  unfold server_managed, strip_server_managed. intros Hk.
  assert (forall k', In k' ["createdBy"; "updatedBy"; "createdAt"; "updatedAt";
                            "allowedToUse"] -> k <> k') as Hne.
  { intros k' Hin ->. exact (Hk Hin). }
  split.
  - rewrite !field_delete_field_other; [reflexivity | apply Hne; simpl; tauto ..].
  - rewrite !has_field_delete_field_other; [reflexivity | apply Hne; simpl; tauto ..].
Qed.

Lemma stringify_props_strip (o : list (string * value)) :
  stringify_props (strip_server_managed o)
  = strip_server_managed (stringify_props o).
Proof.
  unfold strip_server_managed. now rewrite !stringify_props_delete_field.
Qed.

Lemma delete_prop_object {B : Type} (l : loc) (k : string)
    (o : list (string * value)) (rest : M B) (net : transport) (w : world) :
  heap w !! l = Some (Obj o) ->
  (delete_prop l k ;; rest) net w
  = rest net
      {| this := this w; heap := <[l := Obj (delete_field k o)]> (heap w);
         history := history w; sent := sent w; settled := settled w |}.
Proof.
  intros H. unfold delete_prop, bind, read, write. simpl. now rewrite H.
Qed.

(** What a call of [updateWorkspaceConfiguration] on an object does,
    whatever the transport answers and whatever [this.dryrun] is. *)
Lemma updateWorkspaceConfiguration_run (workspaceType : string) (l : loc)
    (o : list (string * value)) (net : transport) (w : world) :
  heap w !! l = Some (Obj o) ->
  let c := call (updateWorkspaceConfiguration workspaceType l) net w in
  requests c = [configuration_request (this w) workspaceType o]
  /\ heap (final c) = <[l := Obj (strip_server_managed o)]> (heap w)
  /\ (forall e, result c <> Threw e).
Proof.
  intros H c. subst c.
  unfold call, requests, updateWorkspaceConfiguration.
  rewrite (delete_prop_object l "createdBy" o) by exact H.
  rewrite (delete_prop_object l "updatedBy" (delete_field "createdBy" o))
    by (simpl; apply lookup_insert_eq).
  rewrite (delete_prop_object l "createdAt"
             (delete_field "updatedBy" (delete_field "createdBy" o)))
    by (simpl; apply lookup_insert_eq).
  rewrite (delete_prop_object l "updatedAt"
             (delete_field "createdAt"
                (delete_field "updatedBy" (delete_field "createdBy" o))))
    by (simpl; apply lookup_insert_eq).
  rewrite (delete_prop_object l "allowedToUse"
             (delete_field "updatedAt"
                (delete_field "createdAt"
                   (delete_field "updatedBy" (delete_field "createdBy" o)))))
    by (simpl; apply lookup_insert_eq).
  cbn [heap this history sent settled begin].
  rewrite !insert_insert_eq.
  fold (strip_server_managed o).
  unfold_runtime. cbn [heap this history sent settled].
  rewrite lookup_insert_eq.
  cbn [prop].
  unfold configuration_request.
  repeat step; cbn [final sent heap result];
    (split; [reflexivity | split; [reflexivity | intros e He; discriminate He]]).
Qed.

(** C9. The body [updateWorkspaceConfiguration] submits in its PUT
    request has none of [createdBy], [updatedBy], [createdAt],
    [updatedAt], [allowedToUse], whether or not the input object has
    them; every other property is submitted as serialising the input
    itself would give it, which for an input that is a JSON document is
    the property unchanged. *)
Theorem updateWorkspaceConfiguration_strips_server_managed :
  forall (workspaceType : string) (l : loc) (o : list (string * value))
         (net : transport) (w : world),
    heap w !! l = Some (Obj o) ->
    exists req submitted,
      requests (call (updateWorkspaceConfiguration workspaceType l) net w) = [req]
      /\ method req = "PUT"
      /\ body req = Obj submitted
      /\ submitted = strip_server_managed (stringify_props o)
      /\ (forall k, In k server_managed -> has_field k submitted = false)
      /\ (forall k, ~ In k server_managed ->
            field k submitted = field k (stringify_props o)
            /\ has_field k submitted = has_field k (stringify_props o))
      /\ (is_json (Obj o) = true ->
          forall k, ~ In k server_managed ->
            field k submitted = field k o
            /\ has_field k submitted = has_field k o).
Proof.
  intros workspaceType l o net w H.
  destruct (updateWorkspaceConfiguration_run workspaceType l o net w H)
    as (Hreq & _ & _).
  exists (configuration_request (this w) workspaceType o).
  exists (strip_server_managed (stringify_props o)).
  split; [exact Hreq |]. split; [reflexivity |].
  split.
  { unfold configuration_request. cbn [body].
    now rewrite JSON_stringify_Obj, stringify_props_strip. }
  split; [reflexivity |]. split; [| split].
  - intros k Hk. now apply strip_server_managed_removes.
  - intros k Hk. now apply strip_server_managed_keeps.
  - intros Hjson k Hk. rewrite (stringify_props_json o Hjson).
    now apply strip_server_managed_keeps.
Qed.

Lemma updateWorkspaceConfiguration_strips_server_managed_witness :
  exists req submitted,
    requests (call (updateWorkspaceConfiguration "wt-1" 1%positive)
                (fun _ _ => ok (Obj [("id", Str "c-1")]))
                (fresh sample_client {[ 1%positive := Obj sample_configuration ]}))
    = [req]
    /\ method req = "PUT"
    /\ body req = Obj submitted
    /\ submitted = [("id", Str "c-1"); ("desc", Str "small")].
Proof.
  assert (heap (fresh sample_client {[ 1%positive := Obj sample_configuration ]})
            !! 1%positive = Some (Obj sample_configuration)) as Hcell
    by reflexivity.
  destruct (updateWorkspaceConfiguration_strips_server_managed "wt-1" 1%positive
              sample_configuration
              (fun _ _ => ok (Obj [("id", Str "c-1")]))
              (fresh sample_client {[ 1%positive := Obj sample_configuration ]})
              Hcell)
    as (req & submitted & Hreq & Hmethod & Hbody & Hsubmitted & _).
  exists req, submitted.
  split; [exact Hreq |]. split; [exact Hmethod |]. split; [exact Hbody |].
  exact Hsubmitted.
Defined.

(** C10. [updateWorkspaceConfiguration] deletes the five server-managed
    properties from the caller's own object: after the call the object
    behind the reference that was passed in no longer has them, its
    other properties are as before, and no other object has changed. *)
Theorem updateWorkspaceConfiguration_mutates_argument :
  forall (workspaceType : string) (l : loc) (o : list (string * value))
         (net : transport) (w : world),
    heap w !! l = Some (Obj o) ->
    let c := call (updateWorkspaceConfiguration workspaceType l) net w in
    heap (final c) !! l = Some (Obj (strip_server_managed o))
    /\ (forall k, In k server_managed ->
          has_field k (strip_server_managed o) = false)
    /\ (forall k, ~ In k server_managed ->
          field k (strip_server_managed o) = field k o)
    /\ (forall l', l' <> l -> heap (final c) !! l' = heap w !! l').
Proof.
  intros workspaceType l o net w H c.
  destruct (updateWorkspaceConfiguration_run workspaceType l o net w H)
    as (_ & Hheap & _).
  fold c in Hheap. rewrite Hheap. split; [apply lookup_insert_eq |].
  split; [intros k Hk; now apply strip_server_managed_removes |].
  split; [intros k Hk; now apply strip_server_managed_keeps |].
  intros l' Hl'. now apply lookup_insert_ne.
Qed.

Lemma updateWorkspaceConfiguration_mutates_argument_witness :
  heap (final (call (updateWorkspaceConfiguration "wt-1" 1%positive)
                 (fun _ _ => ok (Obj [("id", Str "c-1")]))
                 (fresh sample_client {[ 1%positive := Obj sample_configuration ]})))
    !! 1%positive
  = Some (Obj [("id", Str "c-1"); ("desc", Str "small")]).
Proof.
  apply (updateWorkspaceConfiguration_mutates_argument "wt-1" 1%positive
           sample_configuration).
  reflexivity.
Defined.

(** C1, at the method that has no dry-run guard. With [this.dryrun] set,
    [updateWorkspaceConfiguration] still hands its PUT request to the
    transport (and has already modified its argument); what the promise
    settles to is decided by the answer, not by the payload. *)
Theorem updateWorkspaceConfiguration_ignores_dryrun :
  forall (workspaceType : string) (l : loc) (o : list (string * value))
         (net : transport) (w : world),
    heap w !! l = Some (Obj o) ->
    dryrun (this w) = true ->
    let c := call (updateWorkspaceConfiguration workspaceType l) net w in
    exists req,
      requests c = [req]
      /\ is_write req = true
      /\ req = configuration_request (this w) workspaceType o.
Proof.
  intros workspaceType l o net w H _ c.
  destruct (updateWorkspaceConfiguration_run workspaceType l o net w H)
    as (Hreq & _ & _).
  exists (configuration_request (this w) workspaceType o).
  split; [exact Hreq |]. split; reflexivity.
Qed.

Lemma updateWorkspaceConfiguration_ignores_dryrun_witness :
  exists req,
    requests (call (updateWorkspaceConfiguration "wt-1" 1%positive)
                (fun _ _ => ok (Obj [("id", Str "c-1")]))
                (fresh (with_dryrun true sample_client)
                   {[ 1%positive := Obj sample_configuration ]}))
    = [req]
    /\ is_write req = true
    /\ req = configuration_request (with_dryrun true sample_client) "wt-1"
               sample_configuration.
Proof.
  apply (updateWorkspaceConfiguration_ignores_dryrun "wt-1" 1%positive
           sample_configuration); reflexivity.
Defined.

(** ** [login] *)

(** C2, the failure half. When the credential exchange is answered with
    a status other than 200, the error "authentication failed" is thrown
    inside a callback of the inner chain: that chain is rejected with
    it, nothing calls [reject], and the promise [login] returned stays
    pending. No token is stored and no second request is made. *)
Theorem login_failure_leaves_promise_pending :
  forall (net : transport) (w : world) (r : response),
    answer net (begin w) (login_request (this w)) = Some r ->
    status r <> 200%Z ->
    let c := call login net w in
    result c = Returned Pending
    /\ unhandled c = Some (JsError "authentication failed")
    /\ requests c = [login_request (this w)]
    /\ token (this (final c)) = token (this w).
Proof.
  intros net w r Hr Hstatus c. subst c.
  unfold login, login_request in *. unfold_runtime. simpl in *.
  rewrite Hr. simpl.
  destruct (Z.eqb_spec (status r) 200) as [Heq | _]; [contradiction |].
  simpl. repeat split; reflexivity.
Qed.

Lemma login_failure_leaves_promise_pending_witness :
  result (call login
            (fun _ _ => Some {| status := 401;
                                parsed := Some (Obj [("message", Str "denied")]) |})
            (fresh sample_client ∅))
  = Returned Pending.
Proof.
  apply (login_failure_leaves_promise_pending
           (fun _ _ => Some {| status := 401;
                               parsed := Some (Obj [("message", Str "denied")]) |})
           (fresh sample_client ∅)
           {| status := 401; parsed := Some (Obj [("message", Str "denied")]) |}).
  - reflexivity.
  - simpl. discriminate.
Defined.

(** X1. The success half of C2: the token of the answer is stored, a second
    request carrying it fetches the caller's profile, and the promise
    resolves with that profile. *)
Lemma login_success :
  forall (net : transport) (w : world) (r r' : response) (auth t u : value),
    answer net (begin w) (login_request (this w)) = Some r ->
    status r = 200%Z ->
    parsed r = Some auth ->
    prop "idToken" auth = Normal t ->
    answer net (after w [login_request (this w)])
      (get_request (with_token t (this w)) "/api/user") = Some r' ->
    parsed r' = Some u ->
    let c := call login net w in
    result c = Returned (Fulfilled u)
    /\ token (this (final c)) = t
    /\ requests c = [login_request (this w);
                     get_request (with_token t (this w)) "/api/user"].
Proof.
  intros net w r r' auth t u Hr Hstatus Hauth Ht Hr' Hu c. subst c.
  unfold login, login_request, after, with_token, answer in *.
  unfold_runtime. unfold answer. simpl in *.
  rewrite Hr. simpl. rewrite Hstatus. simpl. rewrite Hauth. simpl.
  rewrite Ht. simpl. rewrite Hr'. simpl. rewrite Hu. simpl.
  repeat split; reflexivity.
Qed.

(** ** Sorting lists of project ids *)

Lemma sort_insert_permutation (x : value) (l : list value) :
  Permutation (sort_insert x l) (x :: l).
Proof.
  induction l as [| y l IH]; simpl; [reflexivity |].
  destruct (sort_le x y); [reflexivity |].
  rewrite IH. apply perm_swap.
Qed.

Lemma sort_permutation (l : list value) : Permutation (sort l) l.
Proof.
  induction l as [| x l IH]; simpl; [reflexivity |].
  rewrite sort_insert_permutation. now constructor.
Qed.

(** The order on strings that [sort] uses. *)
Lemma string_compare_lt_trans (s1 s2 s3 : string) :
  (s1 ?= s2) = Lt -> (s2 ?= s3) = Lt -> (s1 ?= s3) = Lt.
Proof.
  revert s2 s3. induction s1 as [| c1 s1 IH]; intros [| c2 s2] [| c3 s3];
    simpl; try congruence.
  unfold Ascii.compare.
  destruct (N.compare_spec (N_of_ascii c1) (N_of_ascii c2)) as [E12 | L12 | G12];
    try discriminate;
    destruct (N.compare_spec (N_of_ascii c2) (N_of_ascii c3)) as [E23 | L23 | G23];
    try discriminate; intros H12 H23.
  - rewrite E12, E23, N.compare_refl. now apply IH with s2.
  - rewrite E12. now apply N.compare_lt_iff in L23 as ->.
  - rewrite <- E23. now apply N.compare_lt_iff in L12 as ->.
  - assert (N_of_ascii c1 < N_of_ascii c3)%N as L13 by (now apply N.lt_trans with (N_of_ascii c2)).
    now apply N.compare_lt_iff in L13 as ->.
Qed.

Lemma string_leb_refl (s : string) : (s <=? s) = true.
Proof.
  destruct (String.leb_total s s) as [H | H]; exact H.
Qed.

Lemma string_leb_trans (s1 s2 s3 : string) :
  (s1 <=? s2) = true -> (s2 <=? s3) = true -> (s1 <=? s3) = true.
Proof.
  intros H12 H23.
  destruct (s1 ?= s2) eqn:C12.
  - apply String.compare_eq_iff in C12. now subst.
  - destruct (s2 ?= s3) eqn:C23.
    + apply String.compare_eq_iff in C23. now subst.
    + unfold String.leb. now rewrite (string_compare_lt_trans s1 s2 s3).
    + unfold String.leb in H23. now rewrite C23 in H23.
  - unfold String.leb in H12. now rewrite C12 in H12.
Qed.

Lemma sort_insert_strings (x : string) (l : list string) :
  sort_insert (Str x) (List.map Str l) = List.map Str (insert_string x l).
Proof.
  induction l as [| y l IH]; simpl; [reflexivity |].
  destruct (x <=? y); simpl; [reflexivity | now rewrite IH].
Qed.

Lemma sort_strings_spec (l : list string) :
  sort (List.map Str l) = List.map Str (sort_strings l).
Proof.
  unfold sort, sort_strings.
  induction l as [| x l IH]; simpl; [reflexivity |].
  now rewrite IH, sort_insert_strings.
Qed.

Lemma insert_string_permutation (x : string) (l : list string) :
  Permutation (insert_string x l) (x :: l).
Proof.
  induction l as [| y l IH]; simpl; [reflexivity |].
  destruct (x <=? y); [reflexivity |].
  rewrite IH. apply perm_swap.
Qed.

Lemma sort_strings_permutation (l : list string) :
  Permutation (sort_strings l) l.
Proof.
  induction l as [| x l IH]; simpl; [reflexivity |].
  rewrite insert_string_permutation. now constructor.
Qed.

Lemma insert_string_sorted (x : string) (l : list string) :
  StronglySorted string_le l ->
  StronglySorted string_le (insert_string x l).
Proof.
  induction 1 as [| y l Hl IH Hy]; simpl.
  - constructor; constructor.
  - destruct (x <=? y) eqn:Hxy.
    + constructor; [now constructor |].
      constructor; [exact Hxy |].
      eapply List.Forall_impl; [| exact Hy].
      intros z Hz. now apply string_leb_trans with y.
    + constructor; [exact IH |].
      assert (string_le y x) as Hyx.
      { destruct (String.leb_total x y) as [H | H]; [congruence | exact H]. }
      eapply Permutation_Forall.
      * symmetry. apply insert_string_permutation.
      * now constructor.
Qed.

Lemma sort_strings_sorted (l : list string) :
  StronglySorted string_le (sort_strings l).
Proof.
  induction l as [| x l IH]; simpl; [constructor |].
  now apply insert_string_sorted.
Qed.

Lemma sorted_permutation_unique (l1 l2 : list string) :
  StronglySorted string_le l1 ->
  StronglySorted string_le l2 ->
  Permutation l1 l2 -> l1 = l2.
Proof.
  intros H1. revert l2.
  induction H1 as [| x l1 Hl1 IH Hx]; intros l2 H2 Hp.
  - apply Permutation_nil in Hp. now subst.
  - destruct H2 as [| y l2 Hl2 Hy].
    { symmetry in Hp. now apply Permutation_nil in Hp. }
    assert (x = y) as ->.
    { assert (In x (y :: l2)) as Hxin
        by (eapply Permutation_in; [exact Hp | now left]).
      assert (In y (x :: l1)) as Hyin
        by (eapply Permutation_in; [symmetry; exact Hp | now left]).
      destruct Hxin as [-> | Hxin]; [reflexivity |].
      destruct Hyin as [-> | Hyin]; [reflexivity |].
      apply String.leb_antisym.
      - rewrite List.Forall_forall in Hx. now apply Hx.
      - rewrite List.Forall_forall in Hy. now apply Hy. }
    f_equal. apply IH; [exact Hl2 |].
    now apply Permutation_cons_inv with y.
Qed.

(** Sorting forgets the order the ids came in. *)
Lemma sort_strings_of_permutation (l1 l2 : list string) :
  Permutation l1 l2 -> sort_strings l1 = sort_strings l2.
Proof.
  intros Hp. apply sorted_permutation_unique; try apply sort_strings_sorted.
  rewrite !sort_strings_permutation. exact Hp.
Qed.

(** ** [addRemoveProjectUser] *)

Lemma occurrences_of_app (p : string) (l1 l2 : list value) :
  occurrences_of p (l1 ++ l2) = occurrences_of p l1 + occurrences_of p l2.
Proof.
  unfold occurrences_of. now rewrite List.filter_app, List.length_app.
Qed.

Lemma occurrences_of_filtered (p : string) (l : list value) :
  occurrences_of p (List.filter (fun id => negb (strict_eq_str id p)) l) = 0.
Proof.
  unfold occurrences_of.
  induction l as [| x l IH]; simpl; [reflexivity |].
  destruct (strict_eq_str x p) eqn:Hx; simpl; [exact IH |].
  now rewrite Hx.
Qed.

Lemma rebuilt_projectId_at_most_once (p : string) (action : value)
    (ids : list value) :
  occurrences_of p (rebuilt_projectId p action ids) <= 1.
Proof.
  unfold rebuilt_projectId.
  destruct (strict_eq_str action "add").
  - rewrite occurrences_of_app, occurrences_of_filtered.
    unfold occurrences_of. simpl. rewrite String.eqb_refl. simpl. lia.
  - rewrite occurrences_of_filtered. lia.
Qed.

Lemma occurrences_of_sort_insert (p : string) (x : value) (l : list value) :
  occurrences_of p (sort_insert x l) = occurrences_of p (x :: l).
Proof.
  unfold occurrences_of.
  induction l as [| y l IH]; simpl; [reflexivity |].
  destruct (sort_le x y); simpl; [reflexivity |].
  simpl in IH.
  destruct (strict_eq_str y p), (strict_eq_str x p); simpl in *; rewrite IH;
    reflexivity.
Qed.

Lemma occurrences_of_sort (p : string) (l : list value) :
  occurrences_of p (sort l) = occurrences_of p l.
Proof.
  induction l as [| x l IH]; [reflexivity |].
  change (sort (x :: l)) with (sort_insert x (sort l)).
  rewrite occurrences_of_sort_insert.
  unfold occurrences_of in *. simpl.
  destruct (strict_eq_str x p); simpl; now rewrite IH.
Qed.

Lemma JSON_stringify_Arr (l : list value) :
  JSON_stringify (Arr l) = Arr (List.map stringify_element l).
Proof. reflexivity. Qed.

Lemma occurrences_of_stringify (p : string) (l : list value) :
  occurrences_of p (List.map stringify_element l) = occurrences_of p l.
Proof.
  unfold occurrences_of.
  induction l as [| x l IH]; simpl; [reflexivity |].
  assert (strict_eq_str (stringify_element x) p = strict_eq_str x p) as ->
    by (destruct x; reflexivity).
  destruct (strict_eq_str x p); simpl; now rewrite IH.
Qed.

(** A property is read back from the serialised object when the
    properties before it have other names. *)
Lemma field_stringify_props_cons_other (k k' : string) (v : value)
    (o : list (string * value)) :
  k <> k' ->
  field k (stringify_props ((k', v) :: o)) = field k (stringify_props o).
Proof.
  intros Hne. destruct v; simpl; try reflexivity;
    (destruct (String.eqb_spec k k'); [contradiction | reflexivity]).
Qed.

Lemma field_set_field_same (k : string) (v : value) (o : list (string * value)) :
  field k (set_field k v o) = v.
Proof.
  induction o as [| [k' v'] o IH]; simpl.
  - now rewrite String.eqb_refl.
  - destruct (String.eqb_spec k k') as [-> | Hne]; simpl.
    + now rewrite String.eqb_refl.
    + destruct (String.eqb_spec k k'); [contradiction | exact IH].
Qed.

Lemma field_set_field_other (k k' : string) (v : value)
    (o : list (string * value)) :
  k <> k' -> field k (set_field k' v o) = field k o.
Proof.
  intros Hne. induction o as [| [k0 v0] o IH]; simpl.
  - destruct (String.eqb_spec k k'); [contradiction | reflexivity].
  - destruct (String.eqb_spec k' k0) as [-> | Hne0]; simpl.
    + destruct (String.eqb_spec k k0); [contradiction | reflexivity].
    + now rewrite IH.
Qed.

(** The short circuit: the sorted and joined lists agree, the promise
    resolves with the fetched record, whose list is now sorted, and
    nothing else is requested. *)
Lemma addRemoveProjectUser_short_circuit_run :
  forall (net : transport) (w : world) (projectId uid : string) (action : value)
         (r : response) (users : list value) (o : list (string * value))
         (ids : list value),
    answer net (begin w) (users_request (this w)) = Some r ->
    parsed r = Some (Arr users) ->
    find_in (has_uid uid) users = Normal (Obj o) ->
    field "projectId" o = Arr ids ->
    join (sort ids)
    = join (sort (rebuilt_projectId projectId (or_default (Str "add") action) ids)) ->
    call (addRemoveProjectUser projectId uid action) net w
    = {| result :=
           Returned (Fulfilled (Obj (set_field "projectId" (Arr (sort ids)) o)));
         unhandled := None;
         final :=
           {| this := this w; heap := heap w; history := history w ++ sent w;
              sent := [users_request (this w)];
              settled :=
                Fulfilled (Obj (set_field "projectId" (Arr (sort ids)) o)) |} |}.
Proof.
  intros net w projectId uid action r users o ids Hr Hparsed Hfind Hids Hjoin.
  unfold addRemoveProjectUser, users_request in *.
  unfold_runtime. reduce.
  rewrite Hr. reduce. rewrite Hparsed. reduce. rewrite Hfind. reduce.
  rewrite Hids. reduce. rewrite <- Hjoin, String.eqb_refl. reduce.
  reflexivity.
Qed.

(** Removing a project that is not in the list leaves the list as it
    is. *)
Lemma rebuilt_projectId_absent (p : string) (action : value) (ids : list value) :
  strict_eq_str action "add" = false ->
  occurrences_of p ids = 0 ->
  rebuilt_projectId p action ids = ids.
Proof.
  intros Haction Hnone. unfold rebuilt_projectId. rewrite Haction.
  unfold occurrences_of in Hnone.
  induction ids as [| x ids IH]; simpl in *; [reflexivity |].
  destruct (strict_eq_str x p); simpl in *; [discriminate |].
  now rewrite IH.
Qed.

Lemma filter_strings (p : string) (ss : list string) :
  List.filter (fun id => negb (strict_eq_str id p)) (List.map Str ss)
  = List.map Str (List.filter (fun s => negb (s =? p)) ss).
Proof.
  induction ss as [| s ss IH]; simpl; [reflexivity |].
  destruct (s =? p); simpl; now rewrite IH.
Qed.

Lemma strings_once_permutation (p : string) (ss : list string) :
  occurrences_of p (List.map Str ss) = 1 ->
  Permutation ss (List.filter (fun s => negb (s =? p)) ss ++ [p]).
Proof.
  unfold occurrences_of.
  induction ss as [| s ss IH]; simpl; [discriminate |].
  destruct (String.eqb_spec s p) as [-> | Hne]; simpl; intros H.
  - injection H as H.
    assert (List.filter (fun s => negb (s =? p)) ss = ss) as ->.
    { clear IH. induction ss as [| s ss IH]; simpl in *; [reflexivity |].
      destruct (s =? p); simpl in *; [discriminate |]. now rewrite IH. }
    apply Permutation_cons_append.
  - constructor. now apply IH.
Qed.

(** Adding a project that occurs exactly once in a list of strings
    gives a list that sorts to the same array. *)
Lemma rebuilt_projectId_present_once (p : string) (ss : list string) :
  occurrences_of p (List.map Str ss) = 1 ->
  sort (rebuilt_projectId p (Str "add") (List.map Str ss))
  = sort (List.map Str ss).
Proof.
  intros Honce. unfold rebuilt_projectId. simpl.
  rewrite filter_strings.
  change [Str p] with (List.map Str [p]).
  rewrite <- List.map_app, !sort_strings_spec. f_equal.
  apply sort_strings_of_permutation. symmetry.
  now apply strings_once_permutation.
Qed.

(** "remove" for a project the user is not in: nothing is written. *)
Lemma remove_of_absent_project_writes_nothing :
  forall (net : transport) (w : world) (projectId uid : string) (action : value)
         (r : response) (users : list value) (o : list (string * value))
         (ids : list value),
    answer net (begin w) (users_request (this w)) = Some r ->
    parsed r = Some (Arr users) ->
    find_in (has_uid uid) users = Normal (Obj o) ->
    field "projectId" o = Arr ids ->
    strict_eq_str (or_default (Str "add") action) "add" = false ->
    occurrences_of projectId ids = 0 ->
    requests (call (addRemoveProjectUser projectId uid action) net w)
    = [users_request (this w)].
Proof.
  intros net w projectId uid action r users o ids Hr Hparsed Hfind Hids
    Haction Habsent.
  rewrite (addRemoveProjectUser_short_circuit_run net w projectId uid action
             r users o ids Hr Hparsed Hfind Hids); [reflexivity |].
  now rewrite rebuilt_projectId_absent.
Qed.

(** "add" for a project that is in the user's list of ids once: nothing
    is written. *)
Lemma add_of_present_project_writes_nothing :
  forall (net : transport) (w : world) (projectId uid : string)
         (r : response) (users : list value) (o : list (string * value))
         (ss : list string),
    answer net (begin w) (users_request (this w)) = Some r ->
    parsed r = Some (Arr users) ->
    find_in (has_uid uid) users = Normal (Obj o) ->
    field "projectId" o = Arr (List.map Str ss) ->
    occurrences_of projectId (List.map Str ss) = 1 ->
    requests (call (addRemoveProjectUser projectId uid (Str "add")) net w)
    = [users_request (this w)].
Proof.
  intros net w projectId uid r users o ss Hr Hparsed Hfind Hids Honce.
  rewrite (addRemoveProjectUser_short_circuit_run net w projectId uid (Str "add")
             r users o (List.map Str ss) Hr Hparsed Hfind Hids); [reflexivity |].
  simpl or_default. now rewrite rebuilt_projectId_present_once.
Qed.

(** The user is in projects ["b"; "a"] and is added to "a": the rebuilt
    list is ["b"; "a"] again, and the record the promise resolves with
    lists ["a"; "b"]. *)
Lemma short_circuit_reorders_fetched_list :
  ~ short_circuit_returns_record_as_fetched.
Proof.
  intros H.
  specialize (H (serving [Obj (user_with_projects ["b"; "a"])]) sample_world
                "a" "u-1" (Str "add")
                {| status := 200;
                   parsed := Some (Arr [Obj (user_with_projects ["b"; "a"])]) |}
                [Obj (user_with_projects ["b"; "a"])]
                (user_with_projects ["b"; "a"])
                [Str "b"; Str "a"]
                eq_refl eq_refl eq_refl eq_refl).
  assert (set_equal
            (rebuilt_projectId "a" (or_default (Str "add") (Str "add"))
               [Str "b"; Str "a"])
            [Str "b"; Str "a"]) as Hset by (intros x; reflexivity).
  destruct (H Hset) as [_ Hres].
  vm_compute in Hres. discriminate Hres.
Qed.

(** With a duplicate in the fetched list the two lists still have the
    same elements, and the call writes. *)
Lemma short_circuit_misses_duplicates :
  set_equal (rebuilt_projectId "a" (Str "add") [Str "a"; Str "a"])
    [Str "a"; Str "a"]
  /\ List.map method
       (requests (call (addRemoveProjectUser "a" "u-1" (Str "add"))
                    (serving [Obj (user_with_projects ["a"; "a"])])
                    sample_world))
     = ["GET"; "PUT"].
Proof.
  split; [| reflexivity].
  intros x. simpl. tauto.
Qed.

(** C3, amended. Whenever the sorted and joined project-id lists before
    and after agree, the call makes no request but the one that fetches
    the users, and resolves with the fetched record: its [projectId]
    list holds the fetched ids in sorted order, every other property is
    as fetched. *)
Theorem addRemoveProjectUser_short_circuit :
  forall (net : transport) (w : world) (projectId uid : string) (action : value)
         (r : response) (users : list value) (o : list (string * value))
         (ids : list value),
    answer net (begin w) (users_request (this w)) = Some r ->
    parsed r = Some (Arr users) ->
    find_in (has_uid uid) users = Normal (Obj o) ->
    field "projectId" o = Arr ids ->
    join (sort ids)
    = join (sort (rebuilt_projectId projectId (or_default (Str "add") action) ids)) ->
    let c := call (addRemoveProjectUser projectId uid action) net w in
    exists o',
      result c = Returned (Fulfilled (Obj o'))
      /\ field "projectId" o' = Arr (sort ids)
      /\ Permutation (sort ids) ids
      /\ (forall k, k <> "projectId" -> field k o' = field k o)
      /\ requests c = [users_request (this w)]
      /\ no_write (requests c).
Proof.
  intros net w projectId uid action r users o ids Hr Hparsed Hfind Hids Hjoin c.
  subst c.
  rewrite (addRemoveProjectUser_short_circuit_run net w projectId uid action
             r users o ids Hr Hparsed Hfind Hids Hjoin).
  exists (set_field "projectId" (Arr (sort ids)) o).
  split; [reflexivity |].
  split; [apply field_set_field_same |].
  split; [apply sort_permutation |].
  split; [intros k Hk; now apply field_set_field_other |].
  split; reflexivity.
Qed.

Lemma addRemoveProjectUser_short_circuit_witness :
  exists o',
    result (call (addRemoveProjectUser "a" "u-1" (Str "add"))
              (serving [Obj (user_with_projects ["b"; "a"])]) sample_world)
    = Returned (Fulfilled (Obj o'))
    /\ field "projectId" o' = Arr (sort [Str "b"; Str "a"])
    /\ Permutation (sort [Str "b"; Str "a"]) [Str "b"; Str "a"]
    /\ (forall k, k <> "projectId" ->
          field k o' = field k (user_with_projects ["b"; "a"]))
    /\ requests (call (addRemoveProjectUser "a" "u-1" (Str "add"))
                   (serving [Obj (user_with_projects ["b"; "a"])]) sample_world)
       = [users_request (this sample_world)]
    /\ no_write
         (requests (call (addRemoveProjectUser "a" "u-1" (Str "add"))
                      (serving [Obj (user_with_projects ["b"; "a"])])
                      sample_world)).
Proof.
  apply (addRemoveProjectUser_short_circuit
           (serving [Obj (user_with_projects ["b"; "a"])]) sample_world
           "a" "u-1" (Str "add")
           {| status := 200;
              parsed := Some (Arr [Obj (user_with_projects ["b"; "a"])]) |}
           [Obj (user_with_projects ["b"; "a"])]
           (user_with_projects ["b"; "a"])
           [Str "b"; Str "a"]); reflexivity.
Defined.

(** ** A redundant "add", twice *)

Lemma users_request_is_read (s : SWB) : is_write (users_request s) = false.
Proof. reflexivity. Qed.

Lemma answer_after_reading (net : transport) (s : SWB) (h : list request)
    (reads : list request) :
  users_change_only_by_writes net s ->
  List.filter is_write reads = [] ->
  net ((h ++ reads) ++ []) (users_request s) = net (h ++ []) (users_request s).
Proof.
  intros Hnet Hreads. apply Hnet.
  rewrite !List.filter_app, Hreads. simpl. now rewrite !List.app_nil_r.
Qed.

Lemma existsb_filter {A : Type} (f : A -> bool) (l : list A) :
  existsb f l = match List.filter f l with [] => false | _ => true end.
Proof.
  induction l as [| x l IH]; simpl; [reflexivity |].
  destruct (f x); simpl; [reflexivity | exact IH].
Qed.

Lemma storing_service_changes_only_by_writes (s : SWB) :
  users_change_only_by_writes storing_service s.
Proof.
  intros h1 h2 H. unfold storing_service. now rewrite !existsb_filter, H.
Qed.

(** The first "add" removes the duplicate: it writes, and the list the
    service holds afterwards is not the list it held before. *)
Lemma redundant_add_rewrites_duplicates :
  ~ redundant_add_leaves_list_unchanged.
Proof.
  intros H.
  specialize (H storing_service sample_world "p" "u-1"
                {| status := 200;
                   parsed := Some (Arr [Obj (user_with_projects ["p"; "p"])]) |}
                [Obj (user_with_projects ["p"; "p"])]
                (user_with_projects ["p"; "p"])
                [Str "p"; Str "p"]
                (storing_service_changes_only_by_writes _)
                eq_refl eq_refl eq_refl eq_refl (or_introl eq_refl)).
  destruct H as [Hsame _].
  vm_compute in Hsame. discriminate Hsame.
Qed.

(** C7, amended. For a user whose fetched list of project ids contains
    [p] exactly once, "add" twice in a row writes nothing, both
    promises resolve, and the service answers the request for the users
    afterwards as it did before. *)
Theorem redundant_add_is_idempotent :
  forall (net : transport) (w : world) (p uid : string) (r : response)
         (users : list value) (o : list (string * value)) (ss : list string),
    users_change_only_by_writes net (this w) ->
    answer net (begin w) (users_request (this w)) = Some r ->
    parsed r = Some (Arr users) ->
    find_in (has_uid uid) users = Normal (Obj o) ->
    field "projectId" o = Arr (List.map Str ss) ->
    occurrences_of p (List.map Str ss) = 1 ->
    let c1 := call (addRemoveProjectUser p uid (Str "add")) net w in
    let c2 := call (addRemoveProjectUser p uid (Str "add")) net (final c1) in
    requests c1 = [users_request (this w)]
    /\ requests c2 = [users_request (this w)]
    /\ no_write (requests c1 ++ requests c2)
    /\ result c1 = result c2
    /\ (exists o', result c2 = Returned (Fulfilled (Obj o'))
                   /\ field "projectId" o' = Arr (sort (List.map Str ss)))
    /\ answer net (begin (final c2)) (users_request (this w)) = Some r.
Proof.
  intros net w p uid r users o ss Hnet Hr Hparsed Hfind Hids Honce c1 c2.
  assert (join (sort (List.map Str ss))
          = join (sort (rebuilt_projectId p (or_default (Str "add") (Str "add"))
                          (List.map Str ss)))) as Hjoin.
  { simpl or_default. now rewrite rebuilt_projectId_present_once. }
  pose proof (addRemoveProjectUser_short_circuit_run net w p uid (Str "add")
                r users o (List.map Str ss) Hr Hparsed Hfind Hids Hjoin) as E1.
  fold c1 in E1.
  assert (answer net (begin (final c1)) (users_request (this (final c1))) = Some r)
    as Hr2.
  { rewrite E1. unfold answer, begin in *. simpl in *.
    rewrite <- Hr. now apply answer_after_reading. }
  pose proof (addRemoveProjectUser_short_circuit_run net (final c1) p uid
                (Str "add") r users o (List.map Str ss) Hr2 Hparsed Hfind Hids
                Hjoin) as E2.
  fold c2 in E2.
  assert (this (final c1) = this w) as Hthis by (now rewrite E1).
  rewrite Hthis in E2.
  split; [now rewrite E1 |]. split; [now rewrite E2 |].
  split; [now rewrite E1, E2 |]. split; [now rewrite E1, E2 |].
  split.
  { exists (set_field "projectId" (Arr (sort (List.map Str ss))) o).
    rewrite E2. split; [reflexivity | apply field_set_field_same]. }
  rewrite E2, E1. unfold answer, begin in *. simpl in *.
  rewrite <- Hr.
  rewrite <- (List.app_assoc (history w ++ sent w)).
  now apply answer_after_reading.
Qed.

Lemma redundant_add_is_idempotent_witness :
  requests (call (addRemoveProjectUser "p" "u-1" (Str "add"))
              (serving [Obj (user_with_projects ["q"; "p"])]) sample_world)
  = [users_request (this sample_world)].
Proof.
  apply (redundant_add_is_idempotent
           (serving [Obj (user_with_projects ["q"; "p"])]) sample_world
           "p" "u-1"
           {| status := 200;
              parsed := Some (Arr [Obj (user_with_projects ["q"; "p"])]) |}
           [Obj (user_with_projects ["q"; "p"])]
           (user_with_projects ["q"; "p"])
           ["q"; "p"]).
  - intros h1 h2 _. reflexivity.
  - reflexivity.
  - reflexivity.
  - reflexivity.
  - reflexivity.
  - reflexivity.
Defined.

(** ** The list in the update payload *)

Lemma field_stringify_props_found (k : string) (l : list value)
    (o : list (string * value)) :
  field k (stringify_props ((k, Arr l) :: o)) = JSON_stringify (Arr l).
Proof.
  cbn [stringify_props field]. now rewrite String.eqb_refl.
Qed.

(** The [projectId] of the serialised payload [u2] is the list that was
    put there. *)
Lemma update_payload_projectId (l old : list value)
    (applyReason email firstName isAdmin isExternalUser lastName rev status
       userRole : value) :
  property "projectId"
    (JSON_stringify
       (Obj (set_field "projectId" (Arr l)
               [("applyReason", applyReason); ("email", email);
                ("firstName", firstName); ("isAdmin", isAdmin);
                ("isExternalUser", isExternalUser); ("lastName", lastName);
                ("projectId", Arr old); ("rev", rev); ("status", status);
                ("userRole", userRole)])))
  = Arr (List.map stringify_element l).
Proof.
  change (set_field "projectId" (Arr l)
            [("applyReason", applyReason); ("email", email);
             ("firstName", firstName); ("isAdmin", isAdmin);
             ("isExternalUser", isExternalUser); ("lastName", lastName);
             ("projectId", Arr old); ("rev", rev); ("status", status);
             ("userRole", userRole)])
    with [("applyReason", applyReason); ("email", email);
          ("firstName", firstName); ("isAdmin", isAdmin);
          ("isExternalUser", isExternalUser); ("lastName", lastName);
          ("projectId", Arr l); ("rev", rev); ("status", status);
          ("userRole", userRole)].
  rewrite JSON_stringify_Obj. cbn [property].
  rewrite !field_stringify_props_cons_other by discriminate.
  now rewrite field_stringify_props_found, JSON_stringify_Arr.
Qed.

Ltac only_read := intros [<- | []]; discriminate.

(** C8. Whatever the user's list was and whatever the action is, the
    list [addRemoveProjectUser] builds contains the target project at
    most once, and so does the [projectId] of the body of every write
    the method makes. *)
Theorem addRemoveProjectUser_lists_project_at_most_once :
  forall (projectId uid : string) (action : value) (net : transport) (w : world),
    (forall ids : list value,
        occurrences_of projectId
          (rebuilt_projectId projectId (or_default (Str "add") action) ids) <= 1)
    /\ (forall req : request,
          In req (requests (call (addRemoveProjectUser projectId uid action) net w)) ->
          is_write req = true ->
          exists l, property "projectId" (body req) = Arr l
                    /\ occurrences_of projectId l <= 1).
Proof.
  intros projectId uid action net w. split.
  { intros ids. apply rebuilt_projectId_at_most_once. }
  intros req.
  unfold addRemoveProjectUser. unfold_runtime. reduce.
  destruct (answer _ _ _) as [r |]; reduce; [| only_read].
  destruct (parsed r) as [users |]; reduce; [| only_read].
  destruct users as [| | | | | users |]; reduce; try only_read.
  destruct (find_in (has_uid uid) users) as [u | e]; reduce; [| only_read].
  destruct u as [| | | | | | o]; reduce; try only_read.
  destruct (field "projectId" o) as [| | | | | ids |] eqn:Hids; reduce;
    try only_read.
  destruct (_ =? _); reduce; try only_read.
  destruct (dryrun (this w)); reduce; try only_read.
  assert (forall q : request,
             q = {| url := api (this w) ++ "/api/users/" ++ uid;
                    method := "PUT";
                    headers := auth_headers (this w);
                    body :=
                      JSON_stringify
                        (Obj (set_field "projectId"
                                (Arr (sort (rebuilt_projectId projectId
                                              (or_default (Str "add") action) ids)))
                                [("applyReason", field "applyReason" o);
                                 ("email", field "email" o);
                                 ("firstName", field "firstName" o);
                                 ("isAdmin", field "isAdmin" o);
                                 ("isExternalUser", field "isExternalUser" o);
                                 ("lastName", field "lastName" o);
                                 ("projectId", Arr ids);
                                 ("rev", field "rev" o);
                                 ("status", field "status" o);
                                 ("userRole", field "userRole" o)])) |} ->
             exists l, property "projectId" (body q) = Arr l
                       /\ occurrences_of projectId l <= 1) as Hput.
  { intros q ->. cbn [body]. rewrite update_payload_projectId.
    eexists. split; [reflexivity |].
    rewrite occurrences_of_stringify, occurrences_of_sort.
    apply rebuilt_projectId_at_most_once. }
  destruct (answer _ _ _) as [r2 |]; reduce;
    [destruct (parsed r2); reduce |];
    (intros [<- | [<- | []]] Hw; [discriminate Hw | now apply Hput]).
Qed.

Lemma addRemoveProjectUser_lists_project_at_most_once_witness :
  exists l,
    property "projectId"
      (body {| url := "https://swb/api/users/u-1"; method := "PUT";
               headers := auth_headers sample_client;
               body := Obj [("email", Str "a@b.com");
                            ("projectId", Arr [Str "a"; Str "b"]);
                            ("rev", Num 3)] |})
    = Arr l
    /\ occurrences_of "b" l <= 1.
Proof.
  destruct (addRemoveProjectUser_lists_project_at_most_once
              "b" "u-1" (Str "add")
              (serving [Obj (user_with_projects ["b"; "a"; "b"])])
              sample_world) as [_ H].
  apply H.
  - right. left. reflexivity.
  - reflexivity.
Defined.

(** ** [getUserByEmailAndIdp] *)

Lemma string_app_assoc (a b c : string) :
  ((a ++ b) ++ c = a ++ b ++ c)%string.
Proof.
  induction a as [| x a IH]; [reflexivity |].
  change (String x ((a ++ b) ++ c) = String x (a ++ b ++ c))%string.
  now f_equal.
Qed.

Lemma string_app_empty_r (a : string) : (a ++ "")%string = a.
Proof.
  induction a as [| x a IH]; [reflexivity |].
  change (String x (a ++ "") = String x a)%string.
  now f_equal.
Qed.

Lemma find_nothing {A : Type} (f : A -> bool) (l : list A) :
  forallb (fun x => negb (f x)) l = true -> List.find f l = None.
Proof.
  induction l as [| x l IH]; simpl; [reflexivity |].
  destruct (f x); simpl; [discriminate | exact IH].
Qed.

Section GetUser.

Variable StringToNumber : string -> option Z.

(** On user records [==] compares strings with strings. *)
Lemma email_and_idp_match_user_record (email idpName : string) (u : value) :
  user_record u = true ->
  email_and_idp_match StringToNumber email idpName u
  = Normal (exact_match email idpName u).
Proof.
  destruct u as [| | | | | | o]; try discriminate. simpl.
  unfold email_and_idp_match. simpl.
  destruct (field "email" o); try discriminate.
  destruct (field "identityProviderName" o); try discriminate.
  intros _. simpl. destruct (s =? email); reflexivity.
Qed.

Lemma find_in_user_records (email idpName : string) (users : list value) :
  forallb user_record users = true ->
  find_in (email_and_idp_match StringToNumber email idpName) users
  = Normal (found (List.find (exact_match email idpName) users)).
Proof.
  induction users as [| u users IH]; simpl; [reflexivity |].
  intros H. apply andb_prop in H as [Hu Hrest].
  rewrite email_and_idp_match_user_record by exact Hu.
  destruct (exact_match email idpName u); [reflexivity | now apply IH].
Qed.

(** C6. Against a fetched collection of user records: when no record
    has exactly the given email and identity provider name, the promise
    is rejected with a message that contains both; when the fetched
    value is an empty array or falsy, the promise is rejected as well;
    when a record matches, the promise resolves with it (the first one
    that does). Only the collection is requested. *)
Theorem getUserByEmailAndIdp_finds_or_rejects :
  forall (email idpName : string) (net : transport) (w : world)
         (r : response) (fetched : value),
    answer net (begin w) (users_request (this w)) = Some r ->
    parsed r = Some fetched ->
    let c := call (getUserByEmailAndIdp StringToNumber email idpName) net w in
    (forall users : list value,
        fetched = Arr users ->
        forallb user_record users = true ->
        forallb (fun u => negb (exact_match email idpName u)) users = true ->
        exists message : string,
          result c = Returned (Rejected (Thrown (Str message)))
          /\ message = (email ++ " not found for " ++ idpName)%string
          /\ contains email message /\ contains idpName message)
    /\ (fetched = Arr [] \/ truthy fetched = false ->
        exists e : exn, result c = Returned (Rejected e))
    /\ (forall (users : list value) (u : value),
          fetched = Arr users ->
          forallb user_record users = true ->
          List.find (exact_match email idpName) users = Some u ->
          result c = Returned (Fulfilled u)
          /\ In u users /\ exact_match email idpName u = true)
    /\ requests c = [users_request (this w)].
Proof.
  intros email idpName net w r fetched Hr Hparsed c. subst c.
  unfold getUserByEmailAndIdp, users_request in *. unfold_runtime. reduce.
  rewrite Hr. reduce. rewrite Hparsed. reduce.
  split; [| split; [| split]].
  - intros users -> Hrecords Hnone.
    cbn [truthy negb]. reduce.
    rewrite find_in_user_records by exact Hrecords.
    rewrite (find_nothing _ _ Hnone).
    cbn [found truthy]. reduce.
    eexists. split; [reflexivity |]. split; [reflexivity |]. split.
    + exists ""%string, (" not found for " ++ idpName)%string. reflexivity.
    + exists (email ++ " not found for ")%string, ""%string.
      now rewrite string_app_empty_r, string_app_assoc.
  - intros [-> | Hfalsy].
    + cbn [truthy negb find_in]. reduce. cbn [truthy]. reduce.
      eexists. reflexivity.
    + rewrite Hfalsy. cbn [negb]. reduce.
      destruct fetched; try discriminate; reduce; eexists; reflexivity.
  - intros users u -> Hrecords Hfind.
    cbn [truthy negb]. reduce.
    rewrite find_in_user_records by exact Hrecords.
    rewrite Hfind. cbn [found].
    pose proof (List.find_some _ _ Hfind) as [Hin Hmatch].
    destruct u as [| | | | | | o]; try discriminate Hmatch.
    cbn [truthy]. reduce. repeat split; [exact Hin | exact Hmatch].
  - destruct (negb (truthy fetched)); reduce;
      (destruct fetched as [| | | | | users |]; reduce; try reflexivity;
       destruct (find_in _ users) as [u | e]; reduce; try reflexivity;
       destruct (truthy u); reduce; reflexivity).
Qed.

End GetUser.

Lemma getUserByEmailAndIdp_finds_or_rejects_witness :
  result (call (getUserByEmailAndIdp (fun _ => None) "a@b.com" "idpX")
            (serving [bob; alice]) sample_world)
  = Returned (Fulfilled alice)
  /\ (exists message : string,
        result (call (getUserByEmailAndIdp (fun _ => None) "a@b.com" "idpX")
                  (serving [bob]) sample_world)
        = Returned (Rejected (Thrown (Str message)))
        /\ message = "a@b.com not found for idpX")
  /\ (exists e : exn,
        result (call (getUserByEmailAndIdp (fun _ => None) "a@b.com" "idpX")
                  (serving []) sample_world)
        = Returned (Rejected e)).
Proof.
  split; [| split].
  - destruct (getUserByEmailAndIdp_finds_or_rejects (fun _ => None)
                "a@b.com" "idpX" (serving [bob; alice]) sample_world
                {| status := 200; parsed := Some (Arr [bob; alice]) |}
                (Arr [bob; alice]) eq_refl eq_refl) as (_ & _ & Hfound & _).
    apply (Hfound [bob; alice] alice); reflexivity.
  - destruct (getUserByEmailAndIdp_finds_or_rejects (fun _ => None)
                "a@b.com" "idpX" (serving [bob]) sample_world
                {| status := 200; parsed := Some (Arr [bob]) |}
                (Arr [bob]) eq_refl eq_refl) as (Hnone & _).
    destruct (Hnone [bob] eq_refl eq_refl eq_refl) as (message & Hres & Hmsg & _).
    exists message. split; [exact Hres | exact Hmsg].
  - destruct (getUserByEmailAndIdp_finds_or_rejects (fun _ => None)
                "a@b.com" "idpX" (serving []) sample_world
                {| status := 200; parsed := Some (Arr []) |}
                (Arr []) eq_refl eq_refl) as (_ & Hempty & _).
    apply Hempty. left. reflexivity.
Defined.

(** ** The whole family: tokens and dry runs *)

(** Case analysis on everything a method inspects, one step at a time. *)
Ltac crunch :=
  repeat (reduce;
    match goal with
    | H : dryrun ?s = _ |- context [dryrun ?s] => rewrite H
    | H : heap ?w !! ?l = _ |- context [heap ?w !! ?l] => rewrite H
    | |- context [<[?l := ?v]> ?h !! ?l] => rewrite (lookup_insert_eq h l v)
    | |- context [match answer ?n ?w ?r with _ => _ end] => destruct (answer n w r)
    | |- context [match parsed ?r with _ => _ end] => destruct (parsed r)
    | |- context [match find_in ?p ?l with _ => _ end] => destruct (find_in p l)
    | |- context [match uids_of ?l with _ => _ end] => destruct (uids_of l) eqn:?
    | |- context [match hasOwnProperty ?k ?p with _ => _ end] =>
        destruct (hasOwnProperty k p)
    | |- context [match field ?k ?o with _ => _ end] => destruct (field k o)
    | |- context [match heap ?w !! ?l with _ => _ end] =>
        destruct (heap w !! l) as [[| | | | | |] |] eqn:?
    | |- context [prop ?k ?v] => is_var v; destruct v
    | |- context [if ?b then _ else _] => destruct b
    | |- context [match ?v with _ => _ end] => is_var v; destruct v
    end).

Ltac unfold_method :=
  unfold perform, addFederatedUser, getUserByEmailAndIdp, updateUserDetails,
    addRemoveProjectUser, getProject, updateProject, getProjects, createProject,
    getStudies, getStudy, createStudy, getStudyPermissions,
    addRemoveStudyPermission, getWorkspaceTypes, getWorkspaceConfigurations,
    updateWorkspaceConfiguration, or_default;
  unfold_runtime.

Lemma uids_of_abrupt (l : list value) (e : exn) :
  uids_of l = Abrupt e -> e = TypeError.
Proof.
  induction l as [| a l IH]; simpl; [discriminate |].
  destruct a; simpl; try (intros H; injection H as <-; reflexivity);
    destruct (uids_of l); try discriminate;
    intros H; injection H as <-; now apply IH.
Qed.

(** A client that never logged in asks for a project; the transport
    answers, and the promise resolves with the answer. *)
Lemma getProject_without_token_resolves : ~ token_is_required.
Proof.
  intros H.
  destruct (H (fun _ => None) (GetProject "p-1")
              (fun _ _ => ok (Obj [("id", Str "p-1")])) sample_world eq_refl)
    as [e [He | He]]; vm_compute in He; discriminate He.
Qed.

Ltac no_error :=
  first [ discriminate
        | match goal with
          | H : uids_of _ = Abrupt ?e |- _ =>
              apply uids_of_abrupt in H; subst e; discriminate
          end ].

Lemma answer_token_blind (net : transport) (w : world) (q : request) :
  answer (token_blind net) w q
  = net (List.map without_authorization (history w ++ sent w))
      (without_authorization q).
Proof. reflexivity. Qed.

Lemma without_authorization_auth_headers (u m : string) (s : SWB) (b : value) :
  without_authorization {| url := u; method := m; headers := auth_headers s;
                           body := b |}
  = {| url := u; method := m;
       headers := [("Content-Type", Str "application/json")]; body := b |}.
Proof. reflexivity. Qed.

Ltac blind :=
  reduce; rewrite ?answer_token_blind; reduce; rewrite ?List.map_app;
  cbn [List.map]; rewrite ?without_authorization_auth_headers.

Ltac crunch_blind :=
  repeat (blind;
    match goal with
    | H : ?h !! ?l = _ |- context [?h !! ?l] => rewrite H
    | |- context [<[?l := ?v]> ?h !! ?l] => rewrite (lookup_insert_eq h l v)
    | |- context [match ?net ?h ?q with Some _ => _ | None => _ end] =>
        is_var net; destruct (net h q)
    | |- context [match parsed ?r with _ => _ end] => destruct (parsed r)
    | |- context [match find_in ?p ?l with _ => _ end] => destruct (find_in p l)
    | |- context [match uids_of ?l with _ => _ end] => destruct (uids_of l) eqn:?
    | |- context [match hasOwnProperty ?k ?p with _ => _ end] =>
        destruct (hasOwnProperty k p)
    | |- context [match field ?k ?o with _ => _ end] => destruct (field k o)
    | |- context [match ?h !! ?l with _ => _ end] =>
        is_var h; destruct (h !! l) as [[| | | | | |] |] eqn:?
    | |- context [prop ?k ?v] => is_var v; destruct v
    | |- context [if ?b then _ else _] => destruct b
    | |- context [match ?v with _ => _ end] => is_var v; destruct v
    end).

(** The token reaches nothing but the [Authorization] header: against a
    service that does not look at that header, a call does the same
    whatever token the client holds. *)
Lemma token_plays_no_part :
  forall (StringToNumber : string -> option Z) (i : invocation)
         (net : transport) (w : world) (t : value),
          let c0 := call (perform StringToNumber i) (token_blind net) w in
          let ct := call (perform StringToNumber i) (token_blind net)
                      (on_client (with_token t (this w)) w) in
          result c0 = result ct
          /\ unhandled c0 = unhandled ct
          /\ List.map without_authorization (requests c0)
             = List.map without_authorization (requests ct)
          /\ heap (final c0) = heap (final ct).
Proof.
  intros StringToNumber i net w t c0 ct. subst c0 ct.
  destruct w as [[a u p tok ap au dry] hp hist snt stl].
  unfold on_client, with_token.
  destruct i; unfold_method; crunch_blind; blind; repeat split; reflexivity.
Qed.

(** C4, amended. No authenticated method checks that a token is held.
    Without one every request it makes carries the undefined token in
    its [Authorization] header, the call never throws or rejects with
    an [Error] of the client's making, and a plain read resolves with
    the body of the answer. And it runs as it does with a token: against
    a service that does not look at the [Authorization] header, the
    outcome of the call, its unhandled rejection, the objects of the
    caller and, that header apart, the requests are the same whatever
    token is held. *)
Theorem no_operation_checks_for_token :
  forall (StringToNumber : string -> option Z) (i : invocation)
         (net : transport) (w : world),
    token (this w) = Undefined ->
    let c := call (perform StringToNumber i) net w in
    Forall unauthenticated (requests c)
    /\ (forall m, result c <> Threw (JsError m))
    /\ (forall m, result c <> Returned (Rejected (JsError m)))
    /\ (forall (path : string) (r : response) (v : value),
          plain_read i = Some path ->
          answer net (begin w) (get_request (this w) path) = Some r ->
          parsed r = Some v ->
          result c = Returned (Fulfilled v)
          /\ requests c = [get_request (this w) path])
    /\ (forall t : value,
          let c0 := call (perform StringToNumber i) (token_blind net) w in
          let ct := call (perform StringToNumber i) (token_blind net)
                      (on_client (with_token t (this w)) w) in
          result c0 = result ct
          /\ unhandled c0 = unhandled ct
          /\ List.map without_authorization (requests c0)
             = List.map without_authorization (requests ct)
          /\ heap (final c0) = heap (final ct)).
Proof.
  intros StringToNumber i net w Htoken c. subst c.
  split; [| split; [| split; [| split]]].
  - destruct i; unfold_method; crunch;
      repeat constructor; unfold unauthenticated;
      cbn [headers auth_headers field String.eqb Ascii.eqb Bool.eqb];
      exact Htoken.
  - destruct i; unfold_method; crunch; intros m Hm; no_error.
  - destruct i; unfold_method; crunch; intros m Hm; no_error.
  - intros path r v Hpath Hr Hv.
    destruct i; try discriminate Hpath; injection Hpath as <-;
      unfold_method; reduce; rewrite Hr; reduce; rewrite Hv; reduce;
      split; reflexivity.
  - intros t. apply token_plays_no_part.
Qed.

Lemma no_operation_checks_for_token_witness :
  result (call (perform (fun _ => None) (GetProject "p-1"))
            (fun _ _ => ok (Obj [("id", Str "p-1")])) sample_world)
  = Returned (Fulfilled (Obj [("id", Str "p-1")]))
  /\ Forall unauthenticated
       (requests (call (perform (fun _ => None) (GetProject "p-1"))
                    (fun _ _ => ok (Obj [("id", Str "p-1")])) sample_world)).
Proof.
  destruct (no_operation_checks_for_token (fun _ => None) (GetProject "p-1")
              (fun _ _ => ok (Obj [("id", Str "p-1")])) sample_world eq_refl)
    as (Hreqs & _ & _ & Hread & _).
  split; [| exact Hreqs].
  apply (Hread "/api/projects/p-1"
           {| status := 200; parsed := Some (Obj [("id", Str "p-1")]) |});
    reflexivity.
Defined.

(** X2. Every method that consults [this.dryrun] writes nothing when it is
    set. *)
Lemma dryrun_makes_no_write :
  forall (StringToNumber : string -> option Z) (i : invocation)
         (net : transport) (w : world),
    guarded_by_dryrun i = true ->
    dryrun (this w) = true ->
    no_write (requests (call (perform StringToNumber i) net w)).
Proof.
  intros StringToNumber i net w Hguarded Hdry.
  destruct i; try discriminate Hguarded; unfold_method; crunch; reflexivity.
Qed.

(** Those that need nothing from the service make no request at all in
    a dry run, and resolve unless an argument is rejected. *)
Lemma dryrun_resolves_without_request :
  forall (StringToNumber : string -> option Z) (i : invocation)
         (net : transport) (w : world),
    builds_payload_from_arguments i = true ->
    dryrun (this w) = true ->
    let c := call (perform StringToNumber i) net w in
    requests c = []
    /\ ((exists e, result c = Threw e)
        \/ (exists payload, result c = Returned (Fulfilled payload))).
Proof.
  intros StringToNumber i net w Hdirect Hdry c. subst c.
  destruct i; try discriminate Hdirect; unfold_method; crunch;
    (split; [reflexivity |]); solve [left; eexists; reflexivity
                                    | right; eexists; reflexivity].
Qed.

(** In a dry run [addFederatedUser] resolves with the body it built. *)
Lemma addFederatedUser_dryrun :
  forall (o : list (string * value)) (adpUrl email : string) (role : value)
         (net : transport) (w : world),
    dryrun (this w) = true ->
    let c := call (addFederatedUser (Obj o) adpUrl email role) net w in
    requests c = []
    /\ result c
       = Returned (Fulfilled
                     (Obj [("email", Str (toLowerCase email));
                           ("identityProviderName", field "id" o);
                           ("projectId", Arr []);
                           ("userRole", or_default (Str "researcher") role);
                           ("authenticationProviderId", Str adpUrl);
                           ("username", Str (toLowerCase email))])).
Proof.
  intros o adpUrl email role net w Hdry c. subst c.
  unfold addFederatedUser. unfold_runtime. reduce. rewrite Hdry. reduce.
  split; reflexivity.
Qed.

(** X3. The reading methods do not look at [this.dryrun]. *)
Lemma dryrun_leaves_reads_alone :
  forall (StringToNumber : string -> option Z) (i : invocation)
         (net : transport) (w : world) (b : bool),
    mutating i = false ->
    let c := call (perform StringToNumber i) net w in
    let c' := call (perform StringToNumber i) net
                (on_client (with_dryrun b (this w)) w) in
    result c' = result c /\ requests c' = requests c
    /\ unhandled c' = unhandled c.
Proof.
  intros StringToNumber i net w b Hread c c'. subst c c'.
  destruct i; try discriminate Hread; unfold_method;
    unfold on_client, with_dryrun, answer, auth_headers;
    repeat (reduce;
            match goal with
            | |- context [match parsed ?r with _ => _ end] => destruct (parsed r)
            | |- context [match find_in ?p ?l with _ => _ end] =>
                destruct (find_in p l)
            | |- context [match ?f ?h ?q with Some _ => _ | None => _ end] =>
                destruct (f h q)
            | |- context [if ?b then _ else _] => destruct b
            | |- context [match ?v with _ => _ end] => is_var v; destruct v
            end);
    repeat split; reflexivity.
Qed.

(** * The rest of the class *)

(** ** [login] and the dry run, at sample calls *)

Lemma login_success_witness :
  result (call login login_service sample_world)
  = Returned (Fulfilled (Obj [("uid", Str "u-1")]))
  /\ token (this (final (call login login_service sample_world))) = Str "T".
Proof.
  destruct (login_success login_service sample_world
              {| status := 200; parsed := Some (Obj [("idToken", Str "T")]) |}
              {| status := 200; parsed := Some (Obj [("uid", Str "u-1")]) |}
              (Obj [("idToken", Str "T")]) (Str "T") (Obj [("uid", Str "u-1")])
              eq_refl eq_refl eq_refl eq_refl eq_refl eq_refl)
    as (Hres & Htoken & _).
  split; [exact Hres | exact Htoken].
Defined.

Lemma dryrun_makes_no_write_witness :
  no_write
    (requests (call (perform (fun _ => None)
                       (AddRemoveProjectUser "c" "u-1" (Str "add")))
                 (serving [Obj (user_with_projects ["a"])]) dry_world)).
Proof.
  apply (dryrun_makes_no_write (fun _ => None)
           (AddRemoveProjectUser "c" "u-1" (Str "add"))
           (serving [Obj (user_with_projects ["a"])]) dry_world);
    reflexivity.
Defined.

Lemma dryrun_leaves_reads_alone_witness :
  result (call (perform (fun _ => None) (GetStudy "s-1"))
            (serving []) (on_client (with_dryrun true (this sample_world))
                            sample_world))
  = result (call (perform (fun _ => None) (GetStudy "s-1")) (serving [])
              sample_world).
Proof.
  apply (dryrun_leaves_reads_alone (fun _ => None) (GetStudy "s-1") (serving [])
           sample_world true).
  reflexivity.
Defined.

(** ** The whole family: where requests go, and what a call changes *)

(** X4. Every request an authenticated method makes goes to an address
    under [this.api] and carries the two headers of the session, the
    token as it is held. No method changes the client, and none but
    [updateWorkspaceConfiguration] changes an object of its caller. *)
Theorem requests_carry_token_and_origin :
  forall (StringToNumber : string -> option Z) (i : invocation)
         (net : transport) (w : world),
    let c := call (perform StringToNumber i) net w in
    Forall (addressed_by (this w)) (requests c)
    /\ this (final c) = this w
    /\ (if leaves_heap_alone i then heap (final c) = heap w else True).
Proof.
  intros StringToNumber i net w c. subst c.
  split; [| split].
  - idtac; (destruct i; unfold_method; crunch;
      repeat first [ apply List.Forall_nil
                   | apply List.Forall_cons;
                     [split; [reflexivity | eexists; reflexivity] |] ]).
  - (destruct i; unfold_method; crunch; reflexivity).
  - (destruct i; cbn [leaves_heap_alone]; try exact I; unfold_method; crunch; reflexivity).
Qed.

(** X5. A reading method makes at most one request, which is no write, and
    leaves the objects of its caller alone. *)
Theorem reads_make_one_request_and_never_write :
  forall (StringToNumber : string -> option Z) (i : invocation)
         (net : transport) (w : world),
    mutating i = false ->
    let c := call (perform StringToNumber i) net w in
    no_write (requests c) /\ length (requests c) <= 1
    /\ heap (final c) = heap w.
Proof.
  intros StringToNumber i net w Hread c. subst c.
  destruct i; try discriminate Hread; unfold_method; crunch;
    (split; [reflexivity | split; [reduce; cbn [length]; lia | reflexivity]]).
Qed.

Lemma reads_make_one_request_and_never_write_witness :
  no_write (requests (call (perform (fun _ => None) (GetStudies (Str "My Studies")))
                        (serving []) sample_world)).
Proof.
  apply (reads_make_one_request_and_never_write (fun _ => None)
           (GetStudies (Str "My Studies")) (serving []) sample_world).
  reflexivity.
Defined.

(** ** The whole family: how calls fail *)










(** ** [getIdp] *)

Ltac unfold_async :=
  unfold call_async, getIdp, set_authProviders, providers_request,
    with_authProviders in *;
  unfold_runtime.

(** With providers cached, no request is made and the lookup is made in
    the cache. *)
Lemma getIdp_answers_from_cache :
  forall (name : string) (net : transport) (w : world) (providers : list value),
    authProviders (this w) = Arr providers ->
    let c := call_async (getIdp name) net w in
    requests c = []
    /\ this (final c) = this w
    /\ result c = Returned (settled_by (find_in (has_id name) providers)).
Proof.
  intros name net w providers Hcache c. subst c.
  unfold_async. reduce. rewrite Hcache. cbn [truthy negb]. reduce.
  cbn [authProviders]. rewrite Hcache.
  destruct (find_in (has_id name) providers); reduce; repeat split; reflexivity.
Qed.

(** With nothing cached, one request to the public endpoint fills the
    cache, and the lookup is made in what was fetched. *)
Lemma getIdp_fetches_into_cache :
  forall (name : string) (net : transport) (w : world) (r : response)
         (providers : list value),
    truthy (authProviders (this w)) = false ->
    answer net (begin w) (providers_request (this w)) = Some r ->
    parsed r = Some (Arr providers) ->
    let c := call_async (getIdp name) net w in
    requests c = [providers_request (this w)]
    /\ this (final c) = with_authProviders (Arr providers) (this w)
    /\ result c = Returned (settled_by (find_in (has_id name) providers)).
Proof.
  intros name net w r providers Hcache Hr Hparsed c. subst c.
  unfold_async. reduce. rewrite Hcache. cbn [negb]. reduce.
  rewrite Hr. reduce. rewrite Hparsed. reduce. cbn [authProviders].
  destruct (find_in (has_id name) providers); reduce; repeat split; reflexivity.
Qed.

(** X7. Two lookups in a row, the first with nothing cached and answered
    with an array (an empty one too: it is truthy): one request in all,
    to the public endpoint and without headers. *)
Theorem getIdp_fetches_once :
  forall (name name' : string) (net : transport) (w : world) (r : response)
         (providers : list value),
    truthy (authProviders (this w)) = false ->
    answer net (begin w) (providers_request (this w)) = Some r ->
    parsed r = Some (Arr providers) ->
    let c1 := call_async (getIdp name) net w in
    let c2 := call_async (getIdp name') net (final c1) in
    requests c1 ++ requests c2 = [providers_request (this w)]
    /\ result c2 = Returned (settled_by (find_in (has_id name') providers))
    /\ this (final c2) = this (final c1).
Proof.
  intros name name' net w r providers Hcache Hr Hparsed c1 c2.
  destruct (getIdp_fetches_into_cache name net w r providers Hcache Hr Hparsed)
    as (Hreq1 & Hthis1 & _).
  fold c1 in Hreq1, Hthis1.
  assert (authProviders (this (final c1)) = Arr providers) as Hcached
    by (now rewrite Hthis1).
  destruct (getIdp_answers_from_cache name' net (final c1) providers Hcached)
    as (Hreq2 & Hthis2 & Hres2).
  fold c2 in Hreq2, Hthis2, Hres2.
  rewrite Hreq1, Hreq2. repeat split; assumption.
Qed.

Lemma getIdp_fetches_once_witness :
  requests (call_async (getIdp "idpX") (serving sample_providers) sample_world)
  ++ requests (call_async (getIdp "internal") (serving sample_providers)
                 (final (call_async (getIdp "idpX") (serving sample_providers)
                           sample_world)))
  = [providers_request sample_client].
Proof.
  apply (getIdp_fetches_once "idpX" "internal" (serving sample_providers)
           sample_world
           {| status := 200; parsed := Some (Arr sample_providers) |}
           sample_providers); reflexivity.
Defined.

Lemma find_in_has_id_objects (name : string) (providers : list value) :
  forallb is_object providers = true ->
  find_in (has_id name) providers
  = Normal (found (List.find (fun idp => strict_eq_str (property "id" idp) name)
                     providers)).
Proof.
  induction providers as [| p providers IH]; simpl; [reflexivity |].
  destruct p; try discriminate. simpl. intros H.
  unfold has_id. simpl.
  destruct (strict_eq_str _ _); [reflexivity | now apply IH].
Qed.

(** X8. With a cache of provider objects, [getIdp] resolves with the first
    provider whose [id] is the name, and with [undefined] when there
    is none. *)
Theorem getIdp_resolves_with_first_match_or_undefined :
  forall (name : string) (net : transport) (w : world) (providers : list value),
    authProviders (this w) = Arr providers ->
    forallb is_object providers = true ->
    let c := call_async (getIdp name) net w in
    (forall idp,
        List.find (fun idp => strict_eq_str (property "id" idp) name) providers
        = Some idp ->
        result c = Returned (Fulfilled idp)
        /\ In idp providers /\ property "id" idp = Str name)
    /\ (forallb (fun idp => negb (strict_eq_str (property "id" idp) name))
          providers = true ->
        result c = Returned (Fulfilled Undefined)).
Proof.
  intros name net w providers Hcache Hobjects c.
  destruct (getIdp_answers_from_cache name net w providers Hcache)
    as (_ & _ & Hres).
  fold c in Hres. rewrite Hres, find_in_has_id_objects by exact Hobjects.
  split.
  - intros idp Hfind. rewrite Hfind. cbn [found settled_by].
    split; [reflexivity |].
    apply List.find_some in Hfind as [Hin Hid]. split; [exact Hin |].
    destruct (property "id" idp); try discriminate Hid.
    simpl in Hid. apply String.eqb_eq in Hid. now subst.
  - intros Hnone. now rewrite (find_nothing _ _ Hnone).
Qed.

Lemma getIdp_resolves_with_first_match_or_undefined_witness :
  result (call_async (getIdp "idpY") (fun _ _ => None) cached_world)
  = Returned (Fulfilled Undefined).
Proof.
  destruct (getIdp_resolves_with_first_match_or_undefined "idpY" (fun _ _ => None)
              cached_world sample_providers eq_refl eq_refl) as [_ Hnone].
  apply Hnone. reflexivity.
Defined.

(** X9. With nothing cached, a failure of the transport or of [json()]
    rejects the promise and leaves the client as it was; an answer that
    is not an array is stored as it is, and the lookup in it rejects
    with a [TypeError]. *)
Theorem getIdp_rejects_when_fetch_fails :
  forall (name : string) (net : transport) (w : world),
    truthy (authProviders (this w)) = false ->
    let c := call_async (getIdp name) net w in
    (answer net (begin w) (providers_request (this w)) = None ->
     result c = Returned (Rejected FetchError) /\ this (final c) = this w)
    /\ (forall r,
          answer net (begin w) (providers_request (this w)) = Some r ->
          parsed r = None ->
          result c = Returned (Rejected InvalidJson) /\ this (final c) = this w)
    /\ (forall r data,
          answer net (begin w) (providers_request (this w)) = Some r ->
          parsed r = Some data ->
          (forall l, data <> Arr l) ->
          result c = Returned (Rejected TypeError)
          /\ authProviders (this (final c)) = data).
Proof.
  intros name net w Hcache c. subst c.
  unfold_async. reduce. rewrite Hcache. cbn [negb]. reduce.
  split; [| split].
  - intros Hr. rewrite Hr. reduce. split; reflexivity.
  - intros r Hr Hparsed. rewrite Hr. reduce. rewrite Hparsed. reduce.
    split; reflexivity.
  - intros r data Hr Hparsed Hdata. rewrite Hr. reduce. rewrite Hparsed. reduce.
    cbn [authProviders].
    destruct data; reduce; try (split; reflexivity).
    exfalso. now apply (Hdata elements).
Qed.

Lemma getIdp_rejects_when_fetch_fails_witness :
  result (call_async (getIdp "idpX") (fun _ _ => None) sample_world)
  = Returned (Rejected FetchError).
Proof.
  destruct (getIdp_rejects_when_fetch_fails "idpX" (fun _ _ => None) sample_world
              eq_refl) as [Hfetch _].
  apply Hfetch. reflexivity.
Defined.

(** ** [login] *)

(** X10. [login] never throws and its promise is never rejected: it
    resolves or stays pending. It resolves, with the body of the second
    answer, exactly when the exchange is answered with status 200 and a
    body that is JSON and not [null], and the request for the profile is
    answered with a JSON body, whatever the status of that answer. *)
Theorem login_resolves_or_stays_pending :
  forall (net : transport) (w : world),
    let c := call login net w in
    (result c = Returned Pending \/ exists u, result c = Returned (Fulfilled u))
    /\ (forall u,
          result c = Returned (Fulfilled u)
          <-> exists (r r' : response) (auth t : value),
                answer net (begin w) (login_request (this w)) = Some r
                /\ status r = 200%Z
                /\ parsed r = Some auth
                /\ prop "idToken" auth = Normal t
                /\ answer net (after w [login_request (this w)])
                     (profile_request t (this w)) = Some r'
                /\ parsed r' = Some u).
Proof.
  intros net w c. subst c.
  unfold login, login_request, profile_request, get_request, after, with_token,
    auth_headers, answer.
  unfold_runtime. unfold answer. reduce.
  cbn [JSON_stringify].
  match goal with
  | |- context [match net ?h ?q with _ => _ end] =>
      destruct (net h q) as [r |] eqn:Hr
  end; reduce.
  2: { split; [left; reflexivity |]. intros u. split; [discriminate |].
       intros (r & r' & auth & t & H & _). discriminate H. }
  destruct (status r =? 200)%Z eqn:Hstatus; cbn [negb]; reduce.
  2: { split; [left; reflexivity |]. intros u. split; [discriminate |].
       intros (r0 & r' & auth & t & H & Hs & _). injection H as <-.
       apply Z.eqb_neq in Hstatus. contradiction. }
  apply Z.eqb_eq in Hstatus.
  destruct (parsed r) as [auth |] eqn:Hauth; reduce.
  2: { split; [left; reflexivity |]. intros u. split; [discriminate |].
       intros (r0 & r' & auth & t & H & _ & Hp & _). injection H as <-.
       rewrite Hauth in Hp. discriminate Hp. }
  destruct (prop "idToken" auth) as [t | e] eqn:Ht; reduce.
  2: { split; [left; reflexivity |]. intros u. split; [discriminate |].
       intros (r0 & r' & auth0 & t & H & _ & Hp & Hi & _). injection H as <-.
       rewrite Hauth in Hp. injection Hp as <-. rewrite Ht in Hi. discriminate Hi. }
  match goal with
  | |- context [match net ?h ?q with _ => _ end] =>
      destruct (net h q) as [r' |] eqn:Hr'
  end; reduce.
  2: { split; [left; reflexivity |]. intros u. split; [discriminate |].
       intros (r0 & r' & auth0 & t0 & H & _ & Hp & Hi & H' & _). injection H as <-.
       rewrite Hauth in Hp. injection Hp as <-. rewrite Ht in Hi.
       injection Hi as <-. rewrite Hr' in H'. discriminate H'. }
  destruct (parsed r') as [u |] eqn:Hu; reduce.
  2: { split; [left; reflexivity |]. intros u. split; [discriminate |].
       intros (r0 & r'0 & auth0 & t0 & H & _ & Hp & Hi & H' & Hu'). injection H as <-.
       rewrite Hauth in Hp. injection Hp as <-. rewrite Ht in Hi.
       injection Hi as <-. rewrite Hr' in H'. injection H' as <-.
       rewrite Hu in Hu'. discriminate Hu'. }
  split; [right; eexists; reflexivity |].
  intros u'. split.
  - intros H. injection H as <-. exists r, r', auth, t. repeat split; assumption.
  - intros (r0 & r'0 & auth0 & t0 & H & _ & Hp & Hi & H' & Hu'). injection H as <-.
    rewrite Hauth in Hp. injection Hp as <-. rewrite Ht in Hi.
    injection Hi as <-. rewrite Hr' in H'. injection H' as <-.
    rewrite Hu in Hu'. injection Hu' as <-. reflexivity.
Qed.

Lemma login_resolves_or_stays_pending_witness :
  result (call login refusing_profile_service sample_world)
  = Returned (Fulfilled (Obj [("message", Str "denied")])).
Proof.
  destruct (login_resolves_or_stays_pending refusing_profile_service sample_world)
    as [_ Hiff].
  apply (proj2 (Hiff (Obj [("message", Str "denied")]))).
  exists {| status := 200; parsed := Some (Obj [("idToken", Str "T")]) |},
    {| status := 401; parsed := Some (Obj [("message", Str "denied")]) |},
    (Obj [("idToken", Str "T")]), (Str "T").
  repeat split; reflexivity.
Defined.

(** X11. The exchange succeeded and the profile cannot be had: the token
    stays, the promise stays pending. *)
Theorem login_keeps_token_when_profile_fails :
  forall (net : transport) (w : world) (r : response) (auth t : value),
    answer net (begin w) (login_request (this w)) = Some r ->
    status r = 200%Z ->
    parsed r = Some auth ->
    prop "idToken" auth = Normal t ->
    (answer net (after w [login_request (this w)]) (profile_request t (this w))
     = None
     \/ exists r',
         answer net (after w [login_request (this w)])
           (profile_request t (this w)) = Some r'
         /\ parsed r' = None) ->
    let c := call login net w in
    result c = Returned Pending
    /\ token (this (final c)) = t
    /\ requests c = [login_request (this w); profile_request t (this w)].
Proof.
  intros net w r auth t Hr Hstatus Hauth Ht Hprofile c. subst c.
  unfold login, login_request, profile_request, after, with_token, answer in *.
  unfold_runtime. unfold answer. simpl in *.
  rewrite Hr. simpl. rewrite Hstatus. simpl. rewrite Hauth. simpl.
  rewrite Ht. simpl.
  destruct Hprofile as [Hnone | (r' & Hr' & Hparsed)].
  - rewrite Hnone. simpl. repeat split; reflexivity.
  - rewrite Hr'. simpl. rewrite Hparsed. simpl. repeat split; reflexivity.
Qed.

Lemma login_keeps_token_when_profile_fails_witness :
  result (call login login_only_service sample_world) = Returned Pending
  /\ token (this (final (call login login_only_service sample_world))) = Str "T".
Proof.
  destruct (login_keeps_token_when_profile_fails login_only_service sample_world
              {| status := 200; parsed := Some (Obj [("idToken", Str "T")]) |}
              (Obj [("idToken", Str "T")]) (Str "T")
              eq_refl eq_refl eq_refl eq_refl (or_introl eq_refl))
    as (Hres & Htoken & _).
  split; [exact Hres | exact Htoken].
Defined.

(** ** The methods that search the user collection *)

Lemma find_in_has_uid_objects (uid : string) (users : list value) :
  forallb is_object users = true ->
  find_in (has_uid uid) users
  = Normal (found (List.find (fun u => strict_eq_str (property "uid" u) uid)
                     users)).
Proof.
  induction users as [| u users IH]; simpl; [reflexivity |].
  destruct u; try discriminate. simpl. intros H.
  unfold has_uid. simpl.
  destruct (strict_eq_str _ _); [reflexivity | now apply IH].
Qed.

(** X12. No record has the uid: both methods reject, whether or not
    [this.dryrun] is set, having only read. *)
Theorem unknown_uid_is_rejected :
  forall (net : transport) (w : world) (r : response) (users : list value)
         (uid firstname surname status userRole projectId : string)
         (action : value),
    answer net (begin w) (users_request (this w)) = Some r ->
    parsed r = Some (Arr users) ->
    forallb is_object users = true ->
    forallb (fun u => negb (strict_eq_str (property "uid" u) uid)) users = true ->
    let c1 := call (updateUserDetails uid firstname surname status userRole) net w in
    let c2 := call (addRemoveProjectUser projectId uid action) net w in
    result c1
    = Returned (Rejected (Thrown (Str "uid not found while adding project")))
    /\ requests c1 = [users_request (this w)]
    /\ result c2
       = Returned (Rejected (Thrown (Str (not_found_message projectId uid action))))
    /\ requests c2 = [users_request (this w)].
Proof.
  intros net w r users uid firstname surname status userRole projectId action
    Hr Hparsed Hobjects Hnone c1 c2. subst c1 c2.
  pose proof (find_in_has_uid_objects uid users Hobjects) as Hfind.
  rewrite (find_nothing _ _ Hnone) in Hfind. cbn [found] in Hfind.
  unfold updateUserDetails, addRemoveProjectUser, users_request,
    not_found_message in *.
  unfold_runtime. reduce.
  rewrite Hr. reduce. rewrite Hparsed. reduce. rewrite Hfind. reduce.
  repeat split; reflexivity.
Qed.

Lemma unknown_uid_is_rejected_witness :
  result (call (addRemoveProjectUser "p-1" "u-9" (Str "remove"))
            (serving [Obj (user_with_projects ["a"])]) sample_world)
  = Returned (Rejected (Thrown (Str "uid u-9 not found while remove to/from p-1"))).
Proof.
  apply (unknown_uid_is_rejected (serving [Obj (user_with_projects ["a"])])
           sample_world
           {| status := 200;
              parsed := Some (Arr [Obj (user_with_projects ["a"])]) |}
           [Obj (user_with_projects ["a"])]
           "u-9" "Ada" "Lovelace" "active" "researcher" "p-1" (Str "remove"));
    reflexivity.
Defined.

(** X13. The user collection arrives as something that is not an array: the
    lookup fails with a [TypeError] inside the callback, nothing
    delivers it, and the promises of [updateUserDetails] and
    [addRemoveProjectUser] never settle; nor does that of
    [getUserByEmailAndIdp] when the answer is truthy. *)
Theorem non_array_answer_leaves_promise_pending :
  forall (StringToNumber : string -> option Z) (net : transport) (w : world)
         (r : response) (fetched : value)
         (uid firstname surname status userRole projectId email idpName : string)
         (action : value),
    answer net (begin w) (users_request (this w)) = Some r ->
    parsed r = Some fetched ->
    is_array fetched = false ->
    let c1 := call (updateUserDetails uid firstname surname status userRole) net w in
    let c2 := call (addRemoveProjectUser projectId uid action) net w in
    let c3 := call (getUserByEmailAndIdp StringToNumber email idpName) net w in
    result c1 = Returned Pending /\ unhandled c1 = Some TypeError
    /\ result c2 = Returned Pending /\ unhandled c2 = Some TypeError
    /\ (truthy fetched = true -> result c3 = Returned Pending)
    /\ unhandled c3 = Some TypeError.
Proof.
  intros StringToNumber net w r fetched uid firstname surname status userRole
    projectId email idpName action Hr Hparsed Harray c1 c2 c3. subst c1 c2 c3.
  unfold updateUserDetails, addRemoveProjectUser, getUserByEmailAndIdp,
    users_request in *.
  unfold_runtime. reduce.
  rewrite Hr. reduce. rewrite Hparsed. reduce.
  destruct fetched; try discriminate Harray; cbn [truthy negb]; reduce;
    repeat split; try reflexivity; try (intros H; discriminate H);
    try (destruct b; reduce; intros H; first [discriminate H | reflexivity]);
    try (destruct (n =? 0)%Z; cbn [negb]; reduce; intros H;
         first [discriminate H | reflexivity]);
    try (destruct (s =? "")%string; cbn [negb]; reduce; intros H;
         first [discriminate H | reflexivity]).
  all: try (destruct b; reduce; reflexivity).
  all: try (destruct (n =? 0)%Z; cbn [negb]; reduce; reflexivity).
  all: try (destruct (s =? "")%string; cbn [negb]; reduce; reflexivity).
Qed.

Lemma non_array_answer_leaves_promise_pending_witness :
  result (call (updateUserDetails "u-1" "Ada" "Lovelace" "active" "researcher")
            (fun _ _ => ok (Obj [("message", Str "Forbidden")])) sample_world)
  = Returned Pending.
Proof.
  apply (non_array_answer_leaves_promise_pending (fun _ => None)
           (fun _ _ => ok (Obj [("message", Str "Forbidden")])) sample_world
           {| status := 200; parsed := Some (Obj [("message", Str "Forbidden")]) |}
           (Obj [("message", Str "Forbidden")])
           "u-1" "Ada" "Lovelace" "active" "researcher" "p-1" "a@b.com" "idpX"
           Undefined); reflexivity.
Defined.

(** ** [updateUserDetails] *)

(** X14. The record is found: the update is PUT, and the promise resolves
    with the [Response] as it is, whatever its status and whether or
    not its body is JSON. *)
Theorem updateUserDetails_resolves_with_response :
  forall (net : transport) (w : world) (r r' : response) (users : list value)
         (o : list (string * value))
         (uid firstname surname status userRole : string),
    answer net (begin w) (users_request (this w)) = Some r ->
    parsed r = Some (Arr users) ->
    find_in (has_uid uid) users = Normal (Obj o) ->
    dryrun (this w) = false ->
    let payload := details_payload o firstname surname status userRole in
    answer net (after w [users_request (this w)])
      (details_request (this w) uid payload) = Some r' ->
    let c := call (updateUserDetails uid firstname surname status userRole) net w in
    result c = Returned (FulfilledResponse r')
    /\ requests c = [users_request (this w); details_request (this w) uid payload]
    /\ unhandled c = None.
Proof.
  intros net w r r' users o uid firstname surname status userRole
    Hr Hparsed Hfind Hdry payload Hr' c. subst c payload.
  unfold updateUserDetails, users_request, details_request, details_payload,
    after, answer in *.
  unfold_runtime. unfold answer. reduce.
  rewrite Hr. reduce. rewrite Hparsed. reduce. rewrite Hfind. reduce.
  rewrite Hdry. reduce. cbn [app] in *. rewrite Hr'. reduce.
  repeat split; reflexivity.
Qed.

Lemma updateUserDetails_resolves_with_response_witness :
  result (call (updateUserDetails "u-1" "Ada" "Lovelace" "active" "researcher")
            (reading (Arr [Obj (user_with_projects ["a"])]) (Some failed))
            sample_world)
  = Returned (FulfilledResponse failed).
Proof.
  apply (updateUserDetails_resolves_with_response
           (reading (Arr [Obj (user_with_projects ["a"])]) (Some failed))
           sample_world
           {| status := 200;
              parsed := Some (Arr [Obj (user_with_projects ["a"])]) |}
           failed
           [Obj (user_with_projects ["a"])]
           (user_with_projects ["a"])
           "u-1" "Ada" "Lovelace" "active" "researcher"); reflexivity.
Defined.

(** In a dry run the payload comes back and nothing is written. *)
Lemma updateUserDetails_dryrun :
  forall (net : transport) (w : world) (r : response) (users : list value)
         (o : list (string * value))
         (uid firstname surname status userRole : string),
    answer net (begin w) (users_request (this w)) = Some r ->
    parsed r = Some (Arr users) ->
    find_in (has_uid uid) users = Normal (Obj o) ->
    dryrun (this w) = true ->
    let c := call (updateUserDetails uid firstname surname status userRole) net w in
    result c
    = Returned (Fulfilled (details_payload o firstname surname status userRole))
    /\ requests c = [users_request (this w)].
Proof.
  intros net w r users o uid firstname surname status userRole
    Hr Hparsed Hfind Hdry c. subst c.
  unfold updateUserDetails, users_request, details_payload in *.
  unfold_runtime. reduce.
  rewrite Hr. reduce. rewrite Hparsed. reduce. rewrite Hfind. reduce.
  rewrite Hdry. reduce. split; reflexivity.
Qed.

(** ** Payloads as the service receives them *)

Lemma has_field_stringify_props (k : string) (o : list (string * value)) :
  has_field k o = false -> has_field k (stringify_props o) = false.
Proof.
  induction o as [| [k' v] o IH]; simpl; [reflexivity |].
  destruct (String.eqb_spec k k') as [-> | Hne]; simpl; [discriminate |].
  intros H. destruct v; simpl; try (now apply IH);
    (destruct (String.eqb_spec k k'); [contradiction | now apply IH]).
Qed.

Lemma field_absent (k : string) (o : list (string * value)) :
  has_field k o = false -> field k o = Undefined.
Proof.
  induction o as [| [k' v] o IH]; simpl; [reflexivity |].
  destruct (k =? k'); simpl; [discriminate | exact IH].
Qed.

Lemma has_field_keys (k : string) (o : list (string * value)) :
  has_field k o = false <-> ~ In k (List.map fst o).
Proof.
  induction o as [| [k' v] o IH]; simpl; [tauto |].
  destruct (String.eqb_spec k k') as [-> | Hne]; simpl.
  - split; [discriminate | intros H; exfalso; apply H; now left].
  - rewrite IH. split; [intros H [E | Hin]; [now apply Hne | now apply H]
                       | intros H Hin; apply H; now right].
Qed.

(** With distinct property names, a property of the serialised object is
    the serialised property. *)
Lemma field_stringify_props (k : string) (o : list (string * value)) :
  List.NoDup (List.map fst o) ->
  field k (stringify_props o) = stringify_property (field k o).
Proof.
  induction o as [| [k' v] o IH]; simpl; [reflexivity |].
  intros Hnodup. apply List.NoDup_cons_iff in Hnodup as [Hfresh Hnodup].
  destruct (String.eqb_spec k k') as [-> | Hne].
  - destruct v; simpl; rewrite ?String.eqb_refl; try reflexivity.
    apply field_absent, has_field_stringify_props, has_field_keys, Hfresh.
  - destruct v; simpl; try (now apply IH);
      (destruct (String.eqb_spec k k'); [contradiction | now apply IH]).
Qed.

Lemma has_field_stringify_props_of (k : string) (o : list (string * value)) :
  List.NoDup (List.map fst o) ->
  has_field k (stringify_props o)
  = has_field k o && negb (match field k o with Undefined => true | _ => false end).
Proof.
  induction o as [| [k' v] o IH]; simpl; [reflexivity |].
  intros Hnodup. apply List.NoDup_cons_iff in Hnodup as [Hfresh Hnodup].
  destruct (String.eqb_spec k k') as [-> | Hne].
  - destruct v; simpl; rewrite ?String.eqb_refl; try reflexivity.
    apply has_field_stringify_props, has_field_keys, Hfresh.
  - destruct v; simpl; try (now apply IH);
      (destruct (String.eqb_spec k k'); [contradiction | now apply IH]).
Qed.

Ltac distinct_names :=
  repeat (apply List.NoDup_cons; [cbn; intuition discriminate |]); apply List.NoDup_nil.

(** X15. The PUT of [updateUserDetails] carries the six copied properties of
    the fetched record and the four arguments, and nothing else of the
    record. *)
Theorem updateUserDetails_sends_editable_subset :
  forall (net : transport) (w : world) (r : response) (users : list value)
         (o : list (string * value))
         (uid firstname surname status userRole : string),
    answer net (begin w) (users_request (this w)) = Some r ->
    parsed r = Some (Arr users) ->
    find_in (has_uid uid) users = Normal (Obj o) ->
    dryrun (this w) = false ->
    let c := call (updateUserDetails uid firstname surname status userRole) net w in
    exists put,
      requests c = [users_request (this w); put]
      /\ method put = "PUT"
      /\ url put = (api (this w) ++ "/api/users/" ++ uid)%string
      /\ (forall k, In k copied_properties ->
            property k (body put) = stringify_property (field k o))
      /\ property "firstName" (body put) = Str firstname
      /\ property "lastName" (body put) = Str surname
      /\ property "status" (body put) = Str status
      /\ property "userRole" (body put) = Str userRole
      /\ (forall k, ~ In k (copied_properties
                              ++ ["firstName"; "lastName"; "status"; "userRole"]) ->
            property k (body put) = Undefined).
Proof.
  intros net w r users o uid firstname surname status userRole
    Hr Hparsed Hfind Hdry c. subst c.
  exists (details_request (this w) uid
            (details_payload o firstname surname status userRole)).
  assert (List.NoDup (List.map fst
                   [("applyReason", field "applyReason" o);
                    ("email", field "email" o);
                    ("firstName", Str firstname);
                    ("isAdmin", field "isAdmin" o);
                    ("isExternalUser", field "isExternalUser" o);
                    ("lastName", Str surname);
                    ("projectId", field "projectId" o);
                    ("rev", field "rev" o);
                    ("status", Str status);
                    ("userRole", Str userRole)])) as Hnames
    by (cbn [List.map fst]; distinct_names).
  split.
  { unfold updateUserDetails, users_request, details_request, details_payload in *.
    unfold_runtime. reduce.
    rewrite Hr. reduce. rewrite Hparsed. reduce. rewrite Hfind. reduce.
    rewrite Hdry. reduce.
    match goal with
    | |- context [match answer ?n ?w' ?q with _ => _ end] =>
        destruct (answer n w' q)
    end; reduce; reflexivity. }
  unfold details_request, details_payload. cbn [method url body].
  rewrite JSON_stringify_Obj. cbn [property].
  split; [reflexivity |]. split; [reflexivity |].
  split.
  { intros k Hk. rewrite (field_stringify_props k _ Hnames).
    unfold copied_properties in Hk. cbn [In] in Hk.
    destruct Hk as [<- | [<- | [<- | [<- | [<- | [<- | []]]]]]]; reflexivity. }
  rewrite !(field_stringify_props _ _ Hnames).
  split; [reflexivity |]. split; [reflexivity |]. split; [reflexivity |].
  split; [reflexivity |].
  intros k Hk.
  rewrite (field_stringify_props k _ Hnames).
  assert (forall k', In k' (copied_properties
                              ++ ["firstName"; "lastName"; "status"; "userRole"]) ->
                     (k =? k') = false) as Hne.
  { intros k' Hin. apply String.eqb_neq. intros ->. exact (Hk Hin). }
  cbn [field]. 
  rewrite !Hne by (cbn; tauto). reflexivity.
Qed.

Lemma updateUserDetails_sends_editable_subset_witness :
  exists put,
    requests (call (updateUserDetails "u-1" "Ada" "Lovelace" "active" "researcher")
                (reading (Arr [Obj (user_with_projects ["a"])]) (Some failed))
                sample_world)
    = [users_request (this sample_world); put]
    /\ property "firstName" (body put) = Str "Ada"
    /\ property "uid" (body put) = Undefined.
Proof.
  destruct (updateUserDetails_sends_editable_subset
              (reading (Arr [Obj (user_with_projects ["a"])]) (Some failed))
              sample_world
              {| status := 200;
                 parsed := Some (Arr [Obj (user_with_projects ["a"])]) |}
              [Obj (user_with_projects ["a"])]
              (user_with_projects ["a"])
              "u-1" "Ada" "Lovelace" "active" "researcher"
              eq_refl eq_refl eq_refl eq_refl)
    as (put & Hreq & _ & _ & _ & Hfirst & _ & _ & _ & Hrest).
  exists put. split; [exact Hreq |]. split; [exact Hfirst |].
  apply Hrest. cbn. intuition discriminate.
Defined.

(** ** [updateProject] *)

(** X16. For a project whose [id] is a string, as the [Project] typedef
    has it, or another primitive, the PUT of [updateProject] goes to
    the address of that [id] and carries the five editable properties
    of the argument, as serialising gives them, and nothing else of
    it. *)
Theorem updateProject_sends_editable_subset :
  forall (net : transport) (w : world) (o : list (string * value)),
    dryrun (this w) = false ->
    is_object (field "id" o) = false ->
    is_array (field "id" o) = false ->
    let c := call (updateProject (Obj o)) net w in
    exists put,
      requests c = [put]
      /\ method put = "PUT"
      /\ url put = (api (this w) ++ "/api/projects/" ++ ToString (field "id" o))%string
      /\ (forall k, In k editable_project_properties ->
            property k (body put) = stringify_property (field k o))
      /\ (forall k, ~ In k editable_project_properties ->
            property k (body put) = Undefined).
Proof.
  intros net w o Hdry _ _ c. subst c.
  assert (List.NoDup (List.map fst
                   [("description", field "description" o);
                    ("id", field "id" o);
                    ("indexId", field "indexId" o);
                    ("projectAdmins", field "projectAdmins" o);
                    ("rev", field "rev" o)])) as Hnames
    by (cbn [List.map fst]; distinct_names).
  eexists. split.
  { unfold updateProject. unfold_runtime. reduce. rewrite Hdry. reduce.
    destruct (answer _ _ _) as [r |]; reduce; [destruct (parsed r); reduce |];
      reflexivity. }
  cbn [method url body]. rewrite JSON_stringify_Obj. cbn [property].
  split; [reflexivity |]. split; [reflexivity |]. split.
  - intros k Hk. rewrite (field_stringify_props k _ Hnames).
    unfold editable_project_properties in Hk. cbn [In] in Hk.
    destruct Hk as [<- | [<- | [<- | [<- | [<- | []]]]]]; reflexivity.
  - intros k Hk. rewrite (field_stringify_props k _ Hnames).
    assert (forall k', In k' editable_project_properties -> (k =? k') = false)
      as Hne.
    { intros k' Hin. apply String.eqb_neq. intros ->. exact (Hk Hin). }
    cbn [field]. rewrite !Hne by (cbn; tauto). reflexivity.
Qed.

Lemma updateProject_sends_editable_subset_witness :
  exists put,
    requests (call (updateProject (Obj sample_project)) (fun _ _ => None)
                sample_world) = [put]
    /\ property "rev" (body put) = Num 2
    /\ property "createdBy" (body put) = Undefined.
Proof.
  destruct (updateProject_sends_editable_subset (fun _ _ => None) sample_world
              sample_project eq_refl eq_refl eq_refl)
    as (put & Hreq & _ & _ & Hkept & Hrest).
  exists put. split; [exact Hreq |]. split.
  - apply (Hkept "rev"). cbn. tauto.
  - apply Hrest. cbn. intuition discriminate.
Defined.

(** A project that is [null] or [undefined] is refused before anything
    is requested, dry run or not. *)
Lemma updateProject_refuses_missing_project :
  forall (net : transport) (w : world) (proj : value),
    proj = Null \/ proj = Undefined ->
    let c := call (updateProject proj) net w in
    result c = Threw TypeError /\ requests c = [].
Proof.
  intros net w proj [-> | ->] c; subst c; unfold updateProject; unfold_runtime;
    reduce; split; reflexivity.
Qed.

(** ** [createProject] *)

Lemma uids_of_objects (admins : list (list (string * value))) :
  uids_of (List.map Obj admins) = Normal (List.map (field "uid") admins).
Proof.
  induction admins as [| a admins IH]; simpl; [reflexivity |].
  now rewrite IH.
Qed.

Lemma uids_of_nullish (admins : list value) :
  In Null admins \/ In Undefined admins -> uids_of admins = Abrupt TypeError.
Proof.
  induction admins as [| a admins IH]; simpl; [tauto |].
  intros H.
  destruct a; simpl; try reflexivity;
    (rewrite IH; [reflexivity |]);
    destruct H as [[H | H] | [H | H]]; try discriminate H; tauto.
Qed.

(** X17. The admins reach the service as the list of their uids, in the
    order given; an admin without a uid becomes [null] in that list. *)
Theorem createProject_sends_admin_uids :
  forall (net : transport) (w : world) (projectId description : string)
         (index : list (string * value)) (admins : list (list (string * value))),
    dryrun (this w) = false ->
    let c := call (createProject projectId description (Obj index)
                     (Arr (List.map Obj admins))) net w in
    exists post,
      requests c = [post]
      /\ method post = "POST"
      /\ url post = (api (this w) ++ "/api/projects")%string
      /\ property "id" (body post) = Str projectId
      /\ property "description" (body post) = Str description
      /\ property "indexId" (body post) = stringify_property (field "id" index)
      /\ property "projectAdmins" (body post)
         = Arr (List.map (fun a => stringify_element (field "uid" a)) admins).
Proof.
  intros net w projectId description index admins Hdry c. subst c.
  assert (List.NoDup (List.map fst
                   [("id", Str projectId);
                    ("description", Str description);
                    ("indexId", field "id" index);
                    ("projectAdmins", Arr (List.map (field "uid") admins))]))
    as Hnames by (cbn [List.map fst]; distinct_names).
  eexists. split.
  { unfold createProject. unfold_runtime. reduce.
    rewrite uids_of_objects. reduce. rewrite Hdry. reduce.
    destruct (answer _ _ _) as [r |]; reduce; [destruct (parsed r); reduce |];
      reflexivity. }
  cbn [method url body]. rewrite JSON_stringify_Obj. cbn [property].
  rewrite !(field_stringify_props _ _ Hnames). cbn [field String.eqb Ascii.eqb Bool.eqb].
  repeat split.
  cbn [stringify_property]. rewrite JSON_stringify_Arr, List.map_map. reflexivity.
Qed.

Lemma createProject_sends_admin_uids_witness :
  exists post,
    requests (call (createProject "p-1" "Pilot" (Obj [("id", Str "i-1")])
                      (Arr (List.map Obj [[("uid", Str "u-1")];
                                          [("name", Str "nobody")]])))
                (fun _ _ => None) sample_world) = [post]
    /\ property "projectAdmins" (body post) = Arr [Str "u-1"; Null].
Proof.
  destruct (createProject_sends_admin_uids (fun _ _ => None) sample_world
              "p-1" "Pilot" [("id", Str "i-1")]
              [[("uid", Str "u-1")]; [("name", Str "nobody")]] eq_refl)
    as (post & Hreq & _ & _ & _ & _ & _ & Hadmins).
  exists post. split; [exact Hreq | exact Hadmins].
Defined.

(** X18. An index that is [null] or [undefined], admins that are not an
    array, or a [null] among the admins: the call throws before
    anything is requested, dry run or not. *)
Theorem createProject_refuses_bad_arguments :
  forall (net : transport) (w : world) (projectId description : string)
         (index admins : value),
    (index = Null \/ index = Undefined)
    \/ is_array admins = false
    \/ (exists l, admins = Arr l /\ (In Null l \/ In Undefined l)) ->
    let c := call (createProject projectId description index admins) net w in
    result c = Threw TypeError /\ requests c = [].
Proof.
  intros net w projectId description index admins Hbad c. subst c.
  unfold createProject. unfold_runtime. reduce.
  destruct Hbad as [[-> | ->] | [Harray | (l & -> & Hnull)]];
    try (reduce; split; reflexivity).
  - destruct index; reduce; try (split; reflexivity);
      destruct admins; try discriminate Harray; reduce; split; reflexivity.
  - destruct index; reduce; try (split; reflexivity);
      rewrite (uids_of_nullish l Hnull); reduce; split; reflexivity.
Qed.

Lemma createProject_refuses_bad_arguments_witness :
  result (call (createProject "p-1" "Pilot" (Obj [("id", Str "i-1")])
                  (Arr [Obj [("uid", Str "u-1")]; Null]))
            (fun _ _ => None) dry_world)
  = Threw TypeError.
Proof.
  apply (createProject_refuses_bad_arguments (fun _ _ => None) dry_world
           "p-1" "Pilot" (Obj [("id", Str "i-1")])
           (Arr [Obj [("uid", Str "u-1")]; Null])).
  right. right. exists [Obj [("uid", Str "u-1")]; Null].
  split; [reflexivity |]. left. right. left. reflexivity.
Defined.

(** ** [createStudy] and [addRemoveStudyPermission] *)

Lemma includes_string (l : list string) (v : value) :
  includes l v = true -> exists s, v = Str s /\ In s l.
Proof.
  unfold includes. rewrite existsb_exists. intros (s & Hin & Heq).
  destruct v; try discriminate Heq. simpl in Heq.
  apply String.eqb_eq in Heq. subst. eauto.
Qed.

(** X19. The category is checked first, then the study type; both before the
    dry-run flag is looked at. Whatever is requested carries a valid
    category and study type and the project as a one-element list. *)
Theorem createStudy_validates_arguments :
  forall (net : transport) (w : world) (id name description projectId : string)
         (category studyType uploadLocationEnabled : value),
    let c := call (createStudy id name description projectId category studyType
                     uploadLocationEnabled) net w in
    (includes study_categories (or_default (Str "Organization") category) = false ->
     result c = Threw (Thrown (Str "Invalid category type.")) /\ requests c = [])
    /\ (includes study_categories (or_default (Str "Organization") category) = true ->
        includes study_types (or_default (Str "unstructured") studyType) = false ->
        result c = Threw (Thrown (Str "Invalid study type")) /\ requests c = [])
    /\ (forall req, In req (requests c) ->
          method req = "POST"
          /\ (exists s, property "category" (body req) = Str s
                        /\ In s study_categories)
          /\ (exists s, property "studyType" (body req) = Str s
                        /\ In s study_types)
          /\ property "projectId" (body req) = Arr [Str projectId]).
Proof.
  intros net w id name description projectId category studyType
    uploadLocationEnabled c. subst c.
  unfold createStudy, study_categories, study_types.
  set (cat := or_default (Str "Organization") category).
  set (st := or_default (Str "unstructured") studyType).
  set (up := or_default (Bool true) uploadLocationEnabled).
  split; [| split].
  - intros Hcat. rewrite Hcat. cbn [negb]. unfold_runtime. reduce.
    split; reflexivity.
  - intros Hcat Hst. rewrite Hcat, Hst. cbn [negb]. unfold_runtime. reduce.
    split; reflexivity.
  - intros req.
    destruct (includes ["Organization"; "My Studies"] cat) eqn:Hcat; cbn [negb];
      [| unfold_runtime; reduce; intros []].
    destruct (includes ["unstructured"; "structured"] st) eqn:Hst; cbn [negb];
      [| unfold_runtime; reduce; intros []].
    apply includes_string in Hcat as (scat & Ecat & Hincat).
    apply includes_string in Hst as (sst & Est & Hinst).
    rewrite Ecat, Est.
    assert (List.NoDup (List.map fst
                     [("id", Str id); ("studyType", Str sst); ("name", Str name);
                      ("description", Str description);
                      ("projectId", Arr [Str projectId]);
                      ("category", Str scat);
                      ("uploadLocationEnabled", up)])) as Hnames
      by (cbn [List.map fst]; distinct_names).
    unfold_runtime. reduce.
    destruct (dryrun (this w)); reduce; [intros [] |].
    assert (forall q : request,
               q = {| url := api (this w) ++ "/api/studies";
                      method := "POST";
                      headers := auth_headers (this w);
                      body :=
                        JSON_stringify
                          (Obj [("id", Str id); ("studyType", Str sst);
                                ("name", Str name);
                                ("description", Str description);
                                ("projectId", Arr [Str projectId]);
                                ("category", Str scat);
                                ("uploadLocationEnabled", up)]) |} ->
               method q = "POST"
               /\ (exists s, property "category" (body q) = Str s
                             /\ In s ["Organization"; "My Studies"])
               /\ (exists s, property "studyType" (body q) = Str s
                             /\ In s ["unstructured"; "structured"])
               /\ property "projectId" (body q) = Arr [Str projectId]) as Hpost.
    { intros q ->. cbn [method body]. rewrite JSON_stringify_Obj. cbn [property].
      rewrite !(field_stringify_props _ _ Hnames).
      cbn [field String.eqb Ascii.eqb Bool.eqb stringify_property].
      split; [reflexivity |]. split; [eauto |]. split; [eauto | reflexivity]. }
    destruct (answer _ _ _) as [r |]; reduce;
      [destruct (parsed r); reduce |];
      (intros [<- | []]; now apply Hpost).
Qed.

Lemma createStudy_validates_arguments_witness :
  result (call (createStudy "s-1" "Study" "A study" "p-1" (Str "Mine")
                  (Str "tabular") Undefined) (fun _ _ => None) dry_world)
  = Threw (Thrown (Str "Invalid category type."))
  /\ result (call (createStudy "s-1" "Study" "A study" "p-1" Undefined
                     (Str "tabular") Undefined) (fun _ _ => None) dry_world)
     = Threw (Thrown (Str "Invalid study type")).
Proof.
  split.
  - destruct (createStudy_validates_arguments (fun _ _ => None) dry_world
                "s-1" "Study" "A study" "p-1" (Str "Mine") (Str "tabular")
                Undefined) as (Hcategory & _).
    apply Hcategory. reflexivity.
  - destruct (createStudy_validates_arguments (fun _ _ => None) dry_world
                "s-1" "Study" "A study" "p-1" Undefined (Str "tabular")
                Undefined) as (_ & Htype & _).
    apply Htype; reflexivity.
Defined.

Section Permissions.

Variable StringToNumber : string -> option Z.

(** X20. The permission level is checked first, then the action, which has
    no default; both before anything else happens. *)
Theorem addRemoveStudyPermission_validates_arguments :
  forall (net : transport) (w : world) (studyId userId : string)
         (action permissionLevel : value),
    let c := call (addRemoveStudyPermission StringToNumber studyId userId action
                     permissionLevel) net w in
    (includes permission_levels (or_default (Str "readonly") permissionLevel)
     = false ->
     result c = Threw (Thrown (Str "Invalid permission level"))
     /\ requests c = [])
    /\ (includes permission_levels (or_default (Str "readonly") permissionLevel)
        = true ->
        includes permission_actions action = false ->
        result c = Threw (Thrown (Str "Invalid action")) /\ requests c = []).
Proof.
  intros net w studyId userId action permissionLevel c. subst c.
  unfold addRemoveStudyPermission, permission_levels, permission_actions.
  split.
  - intros Hlevel. rewrite Hlevel. cbn [negb]. unfold_runtime. reduce.
    split; reflexivity.
  - intros Hlevel Haction. rewrite Hlevel, Haction. cbn [negb].
    unfold_runtime. reduce. split; reflexivity.
Qed.

(** One entry, on the side the action names; the other list is empty.
    In a dry run this body is what the promise resolves with. *)
Lemma addRemoveStudyPermission_dryrun :
  forall (net : transport) (w : world) (studyId userId level : string)
         (add : bool),
    In level permission_levels ->
    dryrun (this w) = true ->
    let c := call (addRemoveStudyPermission StringToNumber studyId userId
                     (Str (if add then "add" else "remove")) (Str level)) net w in
    result c = Returned (Fulfilled (permission_body userId add level))
    /\ requests c = [].
Proof.
  intros net w studyId userId level add Hlevel Hdry c. subst c.
  unfold permission_levels in Hlevel. cbn [In] in Hlevel.
  destruct Hlevel as [<- | [<- | []]]; destruct add;
    unfold addRemoveStudyPermission; simpl; unfold_runtime; reduce;
    rewrite Hdry; reduce; split; reflexivity.
Qed.

(** X21. An answer that has a [code] rejects the promise with its
    [message]; any other object resolves it. The status of the answer
    plays no part. *)
Theorem addRemoveStudyPermission_rejects_embedded_error :
  forall (net : transport) (w : world) (studyId userId level : string)
         (add : bool) (r : response) (p : list (string * value)),
    In level permission_levels ->
    dryrun (this w) = false ->
    answer net (begin w)
      (permissions_request (this w) studyId (permission_body userId add level))
    = Some r ->
    parsed r = Some (Obj p) ->
    has_field "hasOwnProperty" p = false ->
    let c := call (addRemoveStudyPermission StringToNumber studyId userId
                     (Str (if add then "add" else "remove")) (Str level)) net w in
    result c
    = Returned (if has_field "code" p
                then Rejected (Thrown (field "message" p))
                else Fulfilled (Obj p))
    /\ requests c
       = [permissions_request (this w) studyId (permission_body userId add level)]
    /\ unhandled c = None.
Proof.
  intros net w studyId userId level add r p Hlevel Hdry Hr Hparsed Hown c. subst c.
  unfold permission_levels in Hlevel. cbn [In] in Hlevel.
  destruct Hlevel as [<- | [<- | []]]; destruct add;
    unfold addRemoveStudyPermission, permissions_request, permission_body in *;
    simpl in Hr |- *; unfold_runtime; reduce;
    rewrite Hdry; reduce; rewrite Hr; reduce; rewrite Hparsed; reduce;
    cbn [hasOwnProperty]; rewrite Hown; reduce;
    destruct (has_field "code" p); reduce; repeat split; reflexivity.
Qed.

End Permissions.

Lemma addRemoveStudyPermission_validates_arguments_witness :
  result (call (addRemoveStudyPermission (fun _ => None) "s-1" "u-1"
                  (Str "toggle") (Str "owner")) (fun _ _ => None) sample_world)
  = Threw (Thrown (Str "Invalid permission level"))
  /\ result (call (addRemoveStudyPermission (fun _ => None) "s-1" "u-1"
                     Undefined Undefined) (fun _ _ => None) sample_world)
     = Threw (Thrown (Str "Invalid action")).
Proof.
  split.
  - destruct (addRemoveStudyPermission_validates_arguments (fun _ => None)
                (fun _ _ => None) sample_world "s-1" "u-1" (Str "toggle")
                (Str "owner")) as (Hlevel & _).
    apply Hlevel. reflexivity.
  - destruct (addRemoveStudyPermission_validates_arguments (fun _ => None)
                (fun _ _ => None) sample_world "s-1" "u-1" Undefined Undefined)
      as (_ & Haction).
    apply Haction; reflexivity.
Defined.

Lemma addRemoveStudyPermission_rejects_embedded_error_witness :
  result (call (addRemoveStudyPermission (fun _ => None) "s-1" "u-1" (Str "add")
                  (Str "admin")) (fun _ _ => ok (Obj refusal)) sample_world)
  = Returned (Rejected (Thrown (Str "not yours"))).
Proof.
  apply (addRemoveStudyPermission_rejects_embedded_error (fun _ => None)
           (fun _ _ => ok (Obj refusal)) sample_world "s-1" "u-1" "admin" true
           {| status := 200; parsed := Some (Obj refusal) |} refusal).
  - right. left. reflexivity.
  - reflexivity.
  - reflexivity.
  - reflexivity.
  - reflexivity.
Defined.

(** ** [addFederatedUser] *)

Lemma lower_case_letter (c : ascii) :
  is_upper (if is_upper c then ascii_of_nat (nat_of_ascii c + 32) else c)
  = false.
Proof.
  destruct c as [[] [] [] [] [] [] [] []]; reflexivity.
Qed.

Lemma toLowerCase_has_no_upper (s : string) : has_upper (toLowerCase s) = false.
Proof.
  induction s as [| c s IH]; [reflexivity |].
  cbn [toLowerCase has_upper]. now rewrite lower_case_letter, IH.
Qed.

Lemma toLowerCase_without_upper (s : string) :
  has_upper s = false -> toLowerCase s = s.
Proof.
  induction s as [| c s IH]; [reflexivity |].
  cbn [toLowerCase has_upper]. intros H.
  apply orb_false_iff in H as [Hc Hs]. now rewrite Hc, IH.
Qed.

(** X22. The email reaches the service in lower case, twice: as [email] and
    as [username]. No code unit that has a lower case is left in it,
    and lower-casing it again changes nothing. The new user is in no
    project. *)
Theorem addFederatedUser_lower_cases_email :
  forall (net : transport) (w : world) (idp : list (string * value))
         (adpUrl email : string) (role : value),
    dryrun (this w) = false ->
    let c := call (addFederatedUser (Obj idp) adpUrl email role) net w in
    exists post lowered,
      requests c = [post]
      /\ method post = "POST"
      /\ url post = (api (this w) ++ "/api/users")%string
      /\ property "email" (body post) = Str lowered
      /\ property "username" (body post) = Str lowered
      /\ lowered = toLowerCase email
      /\ has_upper lowered = false
      /\ toLowerCase lowered = lowered
      /\ property "projectId" (body post) = Arr [].
Proof.
  intros net w idp adpUrl email role Hdry c. subst c.
  assert (List.NoDup (List.map fst
                   [("email", Str (toLowerCase email));
                    ("identityProviderName", field "id" idp);
                    ("projectId", Arr []);
                    ("userRole", or_default (Str "researcher") role);
                    ("authenticationProviderId", Str adpUrl);
                    ("username", Str (toLowerCase email))])) as Hnames
    by (cbn [List.map fst]; distinct_names).
  eexists. exists (toLowerCase email). split.
  { unfold addFederatedUser. unfold_runtime. reduce. rewrite Hdry. reduce.
    destruct (answer _ _ _) as [r |]; reduce; [destruct (parsed r); reduce |];
      reflexivity. }
  cbn [method url body]. rewrite JSON_stringify_Obj. cbn [property].
  rewrite !(field_stringify_props _ _ Hnames).
  cbn [field String.eqb Ascii.eqb Bool.eqb stringify_property].
  repeat split; try reflexivity.
  - apply toLowerCase_has_no_upper.
  - apply toLowerCase_without_upper, toLowerCase_has_no_upper.
Qed.

Lemma addFederatedUser_lower_cases_email_witness :
  exists post lowered,
    requests (call (addFederatedUser (Obj [("id", Str "idpX")]) "https://pool"
                      "Ada@Example.COM" Undefined) (fun _ _ => None)
                sample_world) = [post]
    /\ property "email" (body post) = Str lowered
    /\ lowered = "ada@example.com".
Proof.
  destruct (addFederatedUser_lower_cases_email (fun _ _ => None) sample_world
              [("id", Str "idpX")] "https://pool" "Ada@Example.COM" Undefined
              eq_refl)
    as (post & lowered & Hreq & _ & _ & Hemail & _ & Hlowered & _).
  exists post, lowered. split; [exact Hreq |]. split; [exact Hemail |].
  rewrite Hlowered. reflexivity.
Defined.

(** ** [updateWorkspaceConfiguration]: the argument is not checked *)

(** X23. A configuration that is [null] or [undefined] makes the call throw
    a [TypeError] at the first [delete], before any request. *)
Theorem updateWorkspaceConfiguration_refuses_missing_object :
  forall (net : transport) (w : world) (workspaceType : string) (l : loc),
    heap w !! l = Some Null \/ heap w !! l = Some Undefined ->
    let c := call (updateWorkspaceConfiguration workspaceType l) net w in
    result c = Threw TypeError /\ requests c = [] /\ heap (final c) = heap w.
Proof.
  intros net w workspaceType l [H | H] c; subst c;
    unfold updateWorkspaceConfiguration; unfold_runtime; reduce;
    rewrite H; reduce; repeat split; reflexivity.
Qed.

Lemma updateWorkspaceConfiguration_refuses_missing_object_witness :
  result (call (updateWorkspaceConfiguration "wt-1" 1%positive) (fun _ _ => None)
            (fresh sample_client {[ 1%positive := Null ]}))
  = Threw TypeError.
Proof.
  apply (updateWorkspaceConfiguration_refuses_missing_object (fun _ _ => None)
           (fresh sample_client {[ 1%positive := Null ]}) "wt-1" 1%positive).
  left. reflexivity.
Defined.

(** X24. A configuration without an [id] is PUT to the address that ends in
    "undefined". *)
Theorem updateWorkspaceConfiguration_without_id :
  forall (net : transport) (w : world) (workspaceType : string) (l : loc)
         (o : list (string * value)),
    heap w !! l = Some (Obj o) ->
    has_field "id" o = false ->
    exists put,
      requests (call (updateWorkspaceConfiguration workspaceType l) net w) = [put]
      /\ method put = "PUT"
      /\ url put = (api (this w) ++ "/api/workspace-types/" ++ workspaceType
                      ++ "/configurations/" ++ "undefined")%string.
Proof.
  intros net w workspaceType l o Hcell Hid.
  destruct (updateWorkspaceConfiguration_run workspaceType l o net w Hcell)
    as (Hreq & _ & _).
  eexists. split; [exact Hreq |]. split; [reflexivity |].
  unfold configuration_request. cbn [url].
  assert (field "id" (strip_server_managed o) = Undefined) as ->.
  { destruct (strip_server_managed_keeps "id" o) as [-> _].
    - unfold server_managed. cbn. intuition discriminate.
    - now apply field_absent. }
  reflexivity.
Qed.

Lemma updateWorkspaceConfiguration_without_id_witness :
  exists put,
    requests (call (updateWorkspaceConfiguration "wt-1" 1%positive)
                (fun _ _ => None)
                (fresh sample_client {[ 1%positive := Obj [("desc", Str "small")] ]}))
    = [put]
    /\ method put = "PUT"
    /\ url put = "https://swb/api/workspace-types/wt-1/configurations/undefined".
Proof.
  apply (updateWorkspaceConfiguration_without_id (fun _ _ => None)
           (fresh sample_client {[ 1%positive := Obj [("desc", Str "small")] ]})
           "wt-1" 1%positive [("desc", Str "small")]); reflexivity.
Defined.

(** ** [addRemoveProjectUser]: what is written, and when *)

Lemma occurrences_of_filter_other (p q : string) (ids : list value) :
  q <> p ->
  occurrences_of q (List.filter (fun id => negb (strict_eq_str id p)) ids)
  = occurrences_of q ids.
Proof.
  intros Hne. unfold occurrences_of.
  induction ids as [| x ids IH]; simpl; [reflexivity |].
  destruct (strict_eq_str x p) eqn:Hp; simpl.
  - destruct x; try discriminate Hp. simpl in Hp |- *.
    apply String.eqb_eq in Hp. subst.
    destruct (String.eqb_spec p q); [now subst | exact IH].
  - destruct (strict_eq_str x q); simpl; now rewrite IH.
Qed.

(** The rebuilt list holds the target once after "add" and not at all
    otherwise; every other id is in it as often as before. *)
Lemma rebuilt_projectId_counts (p q : string) (action : value) (ids : list value) :
  occurrences_of q (rebuilt_projectId p action ids)
  = if (q =? p)%string
    then (if strict_eq_str action "add" then 1 else 0)
    else occurrences_of q ids.
Proof.
  unfold rebuilt_projectId.
  destruct (String.eqb_spec q p) as [-> | Hne].
  - destruct (strict_eq_str action "add").
    + rewrite occurrences_of_app, occurrences_of_filtered.
      unfold occurrences_of. simpl. now rewrite String.eqb_refl.
    + apply occurrences_of_filtered.
  - destruct (strict_eq_str action "add").
    + rewrite occurrences_of_app, occurrences_of_filter_other by exact Hne.
      unfold occurrences_of at 2. simpl.
      destruct (String.eqb_spec p q); [now subst | simpl; lia].
    + now apply occurrences_of_filter_other.
Qed.

(** X25. Every write of [addRemoveProjectUser] goes to the user's own
    address and carries the new membership: the target project once
    after "add" and not at all otherwise, every other project as often
    as it was fetched, and the nine other properties as fetched. *)
Theorem addRemoveProjectUser_writes_new_membership :
  forall (net : transport) (w : world) (projectId uid : string) (action : value)
         (r : response) (users : list value) (o : list (string * value))
         (ids : list value),
    answer net (begin w) (users_request (this w)) = Some r ->
    parsed r = Some (Arr users) ->
    find_in (has_uid uid) users = Normal (Obj o) ->
    field "projectId" o = Arr ids ->
    forall req : request,
      In req (requests (call (addRemoveProjectUser projectId uid action) net w)) ->
      is_write req = true ->
      method req = "PUT"
      /\ url req = (api (this w) ++ "/api/users/" ++ uid)%string
      /\ (exists l,
             property "projectId" (body req) = Arr l
             /\ occurrences_of projectId l
                = (if strict_eq_str (or_default (Str "add") action) "add"
                   then 1 else 0)
             /\ (forall q, q <> projectId ->
                           occurrences_of q l = occurrences_of q ids))
      /\ (forall k, In k carried_over ->
                    property k (body req) = stringify_property (field k o)).
Proof.
  intros net w projectId uid action r users o ids Hr Hparsed Hfind Hids req.
  set (new_ids := rebuilt_projectId projectId (or_default (Str "add") action) ids).
  assert (List.NoDup (List.map fst
                   [("applyReason", field "applyReason" o);
                    ("email", field "email" o);
                    ("firstName", field "firstName" o);
                    ("isAdmin", field "isAdmin" o);
                    ("isExternalUser", field "isExternalUser" o);
                    ("lastName", field "lastName" o);
                    ("projectId", Arr (sort new_ids));
                    ("rev", field "rev" o);
                    ("status", field "status" o);
                    ("userRole", field "userRole" o)])) as Hnames
    by (cbn [List.map fst]; distinct_names).
  unfold addRemoveProjectUser, users_request in *. unfold_runtime. reduce.
  rewrite Hr. reduce. rewrite Hparsed. reduce. rewrite Hfind. reduce.
  rewrite Hids. reduce. fold new_ids.
  destruct (join _ =? join _)%string; reduce; try only_read.
  destruct (dryrun (this w)); reduce; try only_read.
  change (set_field "projectId" (Arr (sort new_ids))
            [("applyReason", field "applyReason" o);
             ("email", field "email" o);
             ("firstName", field "firstName" o);
             ("isAdmin", field "isAdmin" o);
             ("isExternalUser", field "isExternalUser" o);
             ("lastName", field "lastName" o);
             ("projectId", Arr ids);
             ("rev", field "rev" o);
             ("status", field "status" o);
             ("userRole", field "userRole" o)])
    with [("applyReason", field "applyReason" o);
          ("email", field "email" o);
          ("firstName", field "firstName" o);
          ("isAdmin", field "isAdmin" o);
          ("isExternalUser", field "isExternalUser" o);
          ("lastName", field "lastName" o);
          ("projectId", Arr (sort new_ids));
          ("rev", field "rev" o);
          ("status", field "status" o);
          ("userRole", field "userRole" o)].
  match goal with
  | |- context [match answer ?n ?w' ?q with _ => _ end] =>
      destruct (answer n w' q) as [r2 |]
  end; reduce; [destruct (parsed r2); reduce |];
    (intros [<- | [<- | []]] Hw; [discriminate Hw |]);
    cbn [method url body]; rewrite JSON_stringify_Obj; cbn [property];
    (split; [reflexivity |]); (split; [reflexivity |]); split.
  all: try (rewrite (field_stringify_props _ _ Hnames);
            cbn [field String.eqb Ascii.eqb Bool.eqb stringify_property];
            rewrite JSON_stringify_Arr; eexists; split; [reflexivity |];
            split;
            [ rewrite occurrences_of_stringify, occurrences_of_sort;
              unfold new_ids; rewrite rebuilt_projectId_counts;
              now rewrite String.eqb_refl
            | intros q' Hq';
              rewrite occurrences_of_stringify, occurrences_of_sort;
              unfold new_ids; rewrite rebuilt_projectId_counts;
              destruct (String.eqb_spec q' projectId);
              [contradiction | reflexivity] ]).
  all: intros k Hk; rewrite (field_stringify_props _ _ Hnames);
    unfold carried_over in Hk; cbn [In] in Hk;
    destruct Hk as [<- | [<- | [<- | [<- | [<- | [<- | [<- | [<- | [<- | []]]]]]]]]];
    reflexivity.
Qed.

Lemma addRemoveProjectUser_writes_new_membership_witness :
  exists l,
    property "projectId"
      (body (nth 1 (requests (call (addRemoveProjectUser "c" "u-1" (Str "add"))
                                (serving duplicated_membership) sample_world))
               (users_request sample_client)))
    = Arr l
    /\ occurrences_of "c" l = 1.
Proof.
  assert (In (nth 1 (requests (call (addRemoveProjectUser "c" "u-1" (Str "add"))
                                 (serving duplicated_membership) sample_world))
                (users_request sample_client))
            (requests (call (addRemoveProjectUser "c" "u-1" (Str "add"))
                         (serving duplicated_membership) sample_world)))
    as Hin by (vm_compute; right; left; reflexivity).
  destruct (addRemoveProjectUser_writes_new_membership
              (serving duplicated_membership) sample_world
              "c" "u-1" (Str "add")
              {| status := 200; parsed := Some (Arr duplicated_membership) |}
              duplicated_membership
              (user_with_projects ["c"; "a"; "c"])
              [Str "c"; Str "a"; Str "c"]
              eq_refl eq_refl eq_refl eq_refl _ Hin eq_refl)
    as (_ & _ & (l & Hl & Hcount & _) & _).
  exists l. split; [exact Hl | exact Hcount].
Defined.

(** ** When [addRemoveProjectUser] writes *)

Lemma string_length_app (a b : string) :
  String.length (a ++ b) = String.length a + String.length b.
Proof.
  induction a as [| c a IH]; [reflexivity |].
  change (S (String.length (a ++ b)) = S (String.length a) + String.length b).
  now rewrite IH.
Qed.

Lemma concat_length (ss : list string) :
  String.length (String.concat "," ss) = pred (weight ss).
Proof.
  induction ss as [| s ss IH]; [reflexivity |].
  destruct ss as [| s' ss]; [unfold weight; simpl; lia |].
  change (String.concat "," (s :: s' :: ss))
    with (s ++ "," ++ String.concat "," (s' :: ss))%string.
  rewrite !string_length_app, IH. unfold weight. simpl. lia.
Qed.

Lemma join_strings (ss : list string) :
  join (List.map Str ss) = String.concat "," ss.
Proof.
  unfold join. rewrite List.map_map. simpl. now rewrite List.map_id.
Qed.

Lemma weight_permutation (l1 l2 : list string) :
  Permutation l1 l2 -> weight l1 = weight l2.
Proof.
  unfold weight. induction 1; simpl; lia.
Qed.

Lemma weight_app (l1 l2 : list string) : weight (l1 ++ l2) = weight l1 + weight l2.
Proof.
  unfold weight. now rewrite List.map_app, list_sum_app.
Qed.

Lemma sorted_join_length (ss : list string) :
  String.length (join (sort (List.map Str ss))) = pred (weight ss).
Proof.
  rewrite sort_strings_spec, join_strings, concat_length.
  f_equal. apply weight_permutation, sort_strings_permutation.
Qed.

Lemma occurrences_of_strings (p : string) (ss : list string) :
  occurrences_of p (List.map Str ss)
  = length (List.filter (fun s => (s =? p)%string) ss).
Proof.
  unfold occurrences_of. induction ss as [| s ss IH]; simpl; [reflexivity |].
  destruct (s =? p)%string; simpl; now rewrite IH.
Qed.

Lemma weight_filter (p : string) (ss : list string) :
  weight (List.filter (fun s => negb (s =? p)%string) ss)
  + occurrences_of p (List.map Str ss) * S (String.length p)
  = weight ss.
Proof.
  rewrite occurrences_of_strings. unfold weight.
  induction ss as [| s ss IH]; simpl; [reflexivity |].
  destruct (String.eqb_spec s p) as [-> | Hne]; simpl; lia.
Qed.

Lemma rebuilt_strings (p : string) (action : value) (ss : list string) :
  rebuilt_projectId p action (List.map Str ss)
  = List.map Str (List.filter (fun s => negb (s =? p)%string) ss
                    ++ (if strict_eq_str action "add" then [p] else [])).
Proof.
  unfold rebuilt_projectId. rewrite filter_strings.
  destruct (strict_eq_str action "add").
  - now rewrite List.map_app.
  - now rewrite List.app_nil_r.
Qed.

(** For a non-empty project id and a list of id strings, the sorted and
    joined lists agree exactly when the list already is what the action
    asks for. *)
Lemma short_circuit_iff (p : string) (action : value) (ss : list string) :
  p <> ""%string ->
  join (sort (List.map Str ss))
  = join (sort (rebuilt_projectId p action (List.map Str ss)))
  <-> occurrences_of p (List.map Str ss) = expected_count action.
Proof.
  intros Hp.
  assert (1 <= String.length p) as Hlen
    by (destruct p; [contradiction | simpl; lia]).
  pose proof (weight_filter p ss) as Hw.
  rewrite rebuilt_strings. unfold expected_count. split.
  - intros Hjoin. apply (f_equal String.length) in Hjoin.
    rewrite !sorted_join_length, weight_app in Hjoin.
    destruct (strict_eq_str action "add").
    + unfold weight at 3 in Hjoin. simpl in Hjoin. nia.
    + unfold weight at 3 in Hjoin. simpl in Hjoin. nia.
  - intros Hcount. rewrite !sort_strings_spec. do 2 f_equal.
    apply sort_strings_of_permutation.
    destruct (strict_eq_str action "add").
    + now apply strings_once_permutation.
    + rewrite List.app_nil_r.
      rewrite occurrences_of_strings in Hcount.
      clear Hw. induction ss as [| s ss IH]; simpl in *; [reflexivity |].
      destruct (s =? p)%string; simpl in *; [discriminate |].
      constructor. now apply IH.
Qed.

(** X26. With the record found, a non-empty project id and the dry run off,
    the call writes exactly when the membership has to change; then it
    makes one PUT. *)
Theorem addRemoveProjectUser_writes_iff_membership_changes :
  forall (net : transport) (w : world) (projectId uid : string) (action : value)
         (r : response) (users : list value) (o : list (string * value))
         (ss : list string),
    answer net (begin w) (users_request (this w)) = Some r ->
    parsed r = Some (Arr users) ->
    find_in (has_uid uid) users = Normal (Obj o) ->
    field "projectId" o = Arr (List.map Str ss) ->
    projectId <> ""%string ->
    dryrun (this w) = false ->
    let c := call (addRemoveProjectUser projectId uid action) net w in
    (no_write (requests c)
     <-> occurrences_of projectId (List.map Str ss)
         = expected_count (or_default (Str "add") action))
    /\ List.map method (requests c)
       = if (occurrences_of projectId (List.map Str ss)
             =? expected_count (or_default (Str "add") action))%nat
         then ["GET"] else ["GET"; "PUT"].
Proof.
  intros net w projectId uid action r users o ss Hr Hparsed Hfind Hids Hp Hdry c.
  subst c.
  pose proof (short_circuit_iff projectId (or_default (Str "add") action) ss Hp)
    as Hiff.
  destruct (Nat.eqb_spec (occurrences_of projectId (List.map Str ss))
              (expected_count (or_default (Str "add") action))) as [Hcount | Hcount].
  - rewrite (addRemoveProjectUser_short_circuit_run net w projectId uid action
               r users o (List.map Str ss) Hr Hparsed Hfind Hids)
      by (now apply Hiff).
    split; [| reflexivity]. split; [intros _; exact Hcount | reflexivity].
  - assert ((join (sort (List.map Str ss))
             =? join (sort (rebuilt_projectId projectId
                              (or_default (Str "add") action) (List.map Str ss))))%string
            = false) as Hdiffer.
    { apply String.eqb_neq. intros Hjoin. now apply Hcount, Hiff. }
    unfold addRemoveProjectUser, users_request in *. unfold_runtime. reduce.
    rewrite Hr. reduce. rewrite Hparsed. reduce. rewrite Hfind. reduce.
    rewrite Hids. reduce. rewrite Hdiffer. reduce. rewrite Hdry. reduce.
    match goal with
    | |- context [match answer ?n ?w' ?q with _ => _ end] =>
        destruct (answer n w' q) as [r2 |]
    end; reduce; [destruct (parsed r2); reduce |];
      (split; [split; [intros H; discriminate H | intros H; contradiction]
              | reflexivity]).
Qed.

Lemma addRemoveProjectUser_writes_iff_membership_changes_witness :
  List.map method
    (requests (call (addRemoveProjectUser "c" "u-1" (Str "add"))
                 (serving [Obj (user_with_projects ["a"])]) sample_world))
  = ["GET"; "PUT"].
Proof.
  destruct (addRemoveProjectUser_writes_iff_membership_changes
              (serving [Obj (user_with_projects ["a"])]) sample_world
              "c" "u-1" (Str "add")
              {| status := 200;
                 parsed := Some (Arr [Obj (user_with_projects ["a"])]) |}
              [Obj (user_with_projects ["a"])]
              (user_with_projects ["a"])
              ["a"] eq_refl eq_refl eq_refl eq_refl
              ltac:(discriminate) eq_refl) as [_ Hmethods].
  exact Hmethods.
Defined.

(** X27. The empty project id escapes the comparison: added to an empty list
    or removed from the list that holds only it, the joined strings are
    both empty and nothing is written. *)
Theorem empty_project_id_is_never_written :
  forall (net : transport) (w : world) (uid : string) (r : response)
         (users : list value) (o : list (string * value)),
    answer net (begin w) (users_request (this w)) = Some r ->
    parsed r = Some (Arr users) ->
    find_in (has_uid uid) users = Normal (Obj o) ->
    (field "projectId" o = Arr [] ->
     requests (call (addRemoveProjectUser "" uid (Str "add")) net w)
     = [users_request (this w)])
    /\ (field "projectId" o = Arr [Str ""] ->
        requests (call (addRemoveProjectUser "" uid (Str "remove")) net w)
        = [users_request (this w)]).
Proof.
  intros net w uid r users o Hr Hparsed Hfind. split; intros Hids.
  - now rewrite (addRemoveProjectUser_short_circuit_run net w "" uid (Str "add")
                   r users o [] Hr Hparsed Hfind Hids).
  - now rewrite (addRemoveProjectUser_short_circuit_run net w "" uid (Str "remove")
                   r users o [Str ""] Hr Hparsed Hfind Hids).
Qed.

Lemma empty_project_id_is_never_written_witness :
  requests (call (addRemoveProjectUser "" "u-1" (Str "add"))
              (serving [Obj (user_with_projects [])]) sample_world)
  = [users_request (this sample_world)].
Proof.
  destruct (empty_project_id_is_never_written
              (serving [Obj (user_with_projects [])]) sample_world "u-1"
              {| status := 200;
                 parsed := Some (Arr [Obj (user_with_projects [])]) |}
              [Obj (user_with_projects [])]
              (user_with_projects []) eq_refl eq_refl eq_refl) as [Hadd _].
  apply Hadd. reflexivity.
Defined.
